(** * Stress-Test: the load-test engine of [main.go]

    A shallow embedding of the Go program: the [Result], [Report] and
    [StressTest] structs, the body of one worker attempt, the
    collection loop of [Run] as a fold over the received results, the
    finalisation of the average, the goroutines of [Run] as a labelled
    transition system, and the validation performed by [main].

    Go's [int] and [time.Duration] are 64-bit signed integers; they are
    modelled as [Z] with the wrap-around written out ([wrap64]).  The
    [map[int]int] histogram is a [gmap Z Z]. *)

From Stdlib Require Import ZArith Lia String List Permutation.
From stdpp Require Import base option list gmap fin_maps.

Local Open Scope Z_scope.

(** ** Machine integers *)

Definition min_int64 : Z := - 2 ^ 63.
Definition max_int64 : Z := 2 ^ 63 - 1.

Definition in_int64 (z : Z) : Prop := min_int64 <= z <= max_int64.

(** Two's complement wrap-around of a 64-bit signed result. *)
Definition wrap64 (z : Z) : Z := (z + 2 ^ 63) mod 2 ^ 64 - 2 ^ 63.

(** [a + b], [a++] on [int] / [time.Duration]. *)
Definition add64 (a b : Z) : Z := wrap64 (a + b).
Definition incr (a : Z) : Z := add64 a 1.

(** [a / b] on signed integers: truncation towards zero, a run-time
    panic when the divisor is zero. *)
Definition div64 (a b : Z) : option Z :=
  if b =? 0 then None else Some (wrap64 (Z.quot a b)).

(** ** Data model *)

(** [type Result struct]: the [error] interface value is [None] for
    [nil] and carries the message otherwise. *)
Record Result : Type := mkResult {
  StatusCode : Z;
  Duration   : Z;
  Error      : option string
}.

(** [type Report struct] *)
Record Report : Type := mkReport {
  TotalRequests      : Z;
  SuccessfulRequests : Z;
  FailedRequests     : Z;
  TotalTime          : Z;
  StatusCodes        : gmap Z Z;
  MinDuration        : Z;
  MaxDuration        : Z;
  AvgDuration        : Z
}.

(** [type StressTest struct]; of the [http.Client] only its timeout is
    configured. *)
Record StressTest : Type := mkStressTest {
  URL           : string;
  Requests      : Z;
  Concurrency   : Z;
  ClientTimeout : Z
}.

(** [time.Second] in nanoseconds. *)
Definition Second : Z := 1000000000.

(** [http.StatusOK] *)
Definition StatusOK : Z := 200.

Definition NewStressTest (url : string) (requests concurrency : Z) : StressTest :=
  {| URL := url;
     Requests := requests;
     Concurrency := concurrency;
     ClientTimeout := 10 * Second |}.

(** ** One attempt of a worker *)

(** What [st.Client.Get] returns: an error, or a response of which only
    the status code is read. *)
Inductive GetResponse : Type :=
| GetErr (e : string)
| GetOk (status : Z).

(** Body of the worker loop after the call: [duration] is the measured
    [time.Since(start)].  On an error the result is [Result{Error: err}],
    whose other fields take their zero values. *)
Definition attempt (resp : GetResponse) (duration : Z) : Result :=
  match resp with
  | GetErr e => {| StatusCode := 0; Duration := 0; Error := Some e |}
  | GetOk status => {| StatusCode := status; Duration := duration; Error := None |}
  end.

(** ** The collection loop of [Run] *)

(** The state the loop works on: the report under construction and the
    local [totalDuration]. *)
Record Acc : Type := mkAcc {
  report        : Report;
  totalDuration : Z
}.

(** [report := &Report{StatusCodes: make(map[int]int),
                       MinDuration: time.Duration(1<<63 - 1)}] and
    [var totalDuration time.Duration]. *)
Definition init_report : Report :=
  {| TotalRequests := 0;
     SuccessfulRequests := 0;
     FailedRequests := 0;
     TotalTime := 0;
     StatusCodes := ∅;
     MinDuration := max_int64;
     MaxDuration := 0;
     AvgDuration := 0 |}.

Definition init_acc : Acc := {| report := init_report; totalDuration := 0 |}.

(** [m[k]] on a Go map: the zero value when the key is absent. *)
Definition map_get (m : gmap Z Z) (k : Z) : Z := default 0 (m !! k).

(** [m[k]++] *)
Definition map_incr (m : gmap Z Z) (k : Z) : gmap Z Z :=
  <[k := incr (map_get m k)]> m.

(** One iteration of the collection loop on the received [result]. *)
Definition collect_step (a : Acc) (result : Result) : Acc :=
  let r := report a in
  let total := incr (TotalRequests r) in
  match Error result with
  | None =>
      let codes := map_incr (StatusCodes r) (StatusCode result) in
      let succ := if StatusCode result =? StatusOK
                  then incr (SuccessfulRequests r) else SuccessfulRequests r in
      let failed := if StatusCode result =? StatusOK
                    then FailedRequests r else incr (FailedRequests r) in
      let mn := if Duration result <? MinDuration r
                then Duration result else MinDuration r in
      let mx := if Duration result >? MaxDuration r
                then Duration result else MaxDuration r in
      {| report :=
           {| TotalRequests := total;
              SuccessfulRequests := succ;
              FailedRequests := failed;
              TotalTime := TotalTime r;
              StatusCodes := codes;
              MinDuration := mn;
              MaxDuration := mx;
              AvgDuration := AvgDuration r |};
         totalDuration := add64 (totalDuration a) (Duration result) |}
  | Some _ =>
      {| report :=
           {| TotalRequests := total;
              SuccessfulRequests := SuccessfulRequests r;
              FailedRequests := incr (FailedRequests r);
              TotalTime := TotalTime r;
              StatusCodes := StatusCodes r;
              MinDuration := MinDuration r;
              MaxDuration := MaxDuration r;
              AvgDuration := AvgDuration r |};
         totalDuration := totalDuration a |}
  end.

(** The loop over the results in the order they are received. *)
Definition collect (results : list Result) : Acc :=
  foldl collect_step init_acc results.

(** The end of [Run]: [elapsed] is [time.Since(startTime)].  The result
    is [None] when the division panics. *)
Definition finalize (a : Acc) (elapsed : Z) : option Report :=
  let r := report a in
  if SuccessfulRequests r >? 0 then
    match div64 (totalDuration a) (SuccessfulRequests r) with
    | Some avg =>
        Some {| TotalRequests := TotalRequests r;
                SuccessfulRequests := SuccessfulRequests r;
                FailedRequests := FailedRequests r;
                TotalTime := elapsed;
                StatusCodes := StatusCodes r;
                MinDuration := MinDuration r;
                MaxDuration := MaxDuration r;
                AvgDuration := avg |}
    | None => None
    end
  else
    Some {| TotalRequests := TotalRequests r;
            SuccessfulRequests := SuccessfulRequests r;
            FailedRequests := FailedRequests r;
            TotalTime := elapsed;
            StatusCodes := StatusCodes r;
            MinDuration := MinDuration r;
            MaxDuration := MaxDuration r;
            AvgDuration := AvgDuration r |}.

(** The report [Run] returns after receiving [results]. *)
Definition aggregate (results : list Result) (elapsed : Z) : option Report :=
  finalize (collect results) elapsed.

(** Sum of the counts of a histogram. *)
Definition hist_sum (m : gmap Z Z) : Z :=
  map_fold (fun _ v acc => v + acc) 0 m.

(** The result carries a transport error ([result.Error != nil]). *)
Definition is_error (r : Result) : bool :=
  match Error r with Some _ => true | None => false end.

(** The result is a response with status 200. *)
Definition is_success (r : Result) : bool :=
  negb (is_error r) && (StatusCode r =? StatusOK).

(** How many of the results satisfy [p]. *)
Definition count_if (p : Result -> bool) (l : list Result) : Z :=
  Z.of_nat (length (filter (fun r => p r = true) l)).

Definition count_errors (l : list Result) : Z := count_if is_error l.
Definition count_success (l : list Result) : Z := count_if is_success l.

(** The durations measured for the results that are responses. *)
Definition response_durations (l : list Result) : list Z :=
  Duration <$> filter (fun r => is_error r = false) l.

(** The durations of the results, added up without wrap-around. *)
Definition total_of (l : list Result) : Z :=
  foldr (fun x t => Duration x + t) 0 l.

(** A response with status 200, measured at a duration that is not
    negative. *)
Definition ok_response (x : Result) : Prop :=
  Error x = None /\ StatusCode x = StatusOK /\ 0 <= Duration x.

(** A result with a transport error has no status code and no
    duration. *)
Definition error_blank (x : Result) : Prop :=
  is_error x = true -> StatusCode x = 0 /\ Duration x = 0.

(** ** The goroutines of [Run]

    [Run] is one main goroutine and [st.Concurrency] workers that share
    two buffered channels.  Each goroutine is a small program counter;
    a step of the system is one operation of one goroutine.  The
    scheduler and the network are the two sources of choice, and both
    are carried by the label of the step. *)

(** A worker: about to receive from [requestChan] ([for range]), about
    to call [st.Client.Get], about to send its result, or returned. *)
Inductive Worker : Type :=
| WRange
| WGet
| WSend (r : Result)
| WDone.

(** The main goroutine: in the loop that fills [requestChan], in the
    loop that starts the workers, in the collection loop, or returned
    from [Run] with the report; [MPanic] is a run-time panic. *)
Inductive Main : Type :=
| MFill (i : Z)
| MSpawn (i : Z)
| MCollect (i : Z)
| MReturn (r : Report)
| MPanic.

(** Counters of what has happened so far.  They are history, not
    program state: no transition reads them. *)
Record History : Type := mkHistory {
  placed   : nat;   (* tokens sent on [requestChan] *)
  taken    : nat;   (* tokens received by workers *)
  issued   : nat;   (* calls of [st.Client.Get] *)
  emitted  : nat;   (* results sent on [results] *)
  consumed : list Result   (* results received by the collection loop, in order *)
}.

Record State : Type := mkState {
  main        : Main;
  requestChan : nat;          (* tokens buffered; they are all [struct{}{}] *)
  closed      : bool;         (* [close(requestChan)] has run *)
  workers     : list Worker;
  results     : list Result;  (* buffer of the [results] channel, oldest first *)
  acc         : Acc;
  hist        : History
}.

(** The state in which the filling loop starts, once both channels are
    made (see [Run_start]). *)
Definition init_state : State :=
  {| main := MFill 0;
     requestChan := 0%nat;
     closed := false;
     workers := [];
     results := [];
     acc := init_acc;
     hist := mkHistory 0 0 0 0 [] |}.

(** One operation of the main goroutine, from the filling loop on.
    [None]: the operation blocks (or the goroutine has ended).  Both
    channels were made with capacity [st.Requests] by then
    ([Run_start]). *)
Definition main_step (st : StressTest) (elapsed : Z) (s : State) : option State :=
  let h := hist s in
  match main s with
  | MFill i =>
      if i <? Requests st then
        if Z.of_nat (requestChan s) <? Requests st then
          Some (mkState (MFill (incr i)) (S (requestChan s)) (closed s)
                  (workers s) (results s) (acc s)
                  (mkHistory (S (placed h)) (taken h) (issued h) (emitted h) (consumed h)))
        else None
      else
        Some (mkState (MSpawn 0) (requestChan s) true
                (workers s) (results s) (acc s) h)
  | MSpawn i =>
      if i <? Concurrency st then
        Some (mkState (MSpawn (incr i)) (requestChan s) (closed s)
                (workers s ++ [WRange]) (results s) (acc s) h)
      else
        Some (mkState (MCollect 0) (requestChan s) (closed s)
                (workers s) (results s) (acc s) h)
  | MCollect i =>
      if i <? Requests st then
        match results s with
        | [] => None
        | result :: rest =>
            Some (mkState (MCollect (incr i)) (requestChan s) (closed s)
                    (workers s) rest (collect_step (acc s) result)
                    (mkHistory (placed h) (taken h) (issued h) (emitted h) (consumed h ++ [result])))
        end
      else
        Some (mkState
                (match finalize (acc s) elapsed with
                 | Some r => MReturn r
                 | None => MPanic
                 end)
                (requestChan s) (closed s) (workers s) (results s) (acc s) h)
  | MReturn _ | MPanic => None
  end.

(** One operation of worker [k]; [resp] and [duration] are what the
    call and the clock give if the operation is the [Get]. *)
Definition worker_step (st : StressTest) (k : nat) (resp : GetResponse)
    (duration : Z) (s : State) : option State :=
  let h := hist s in
  match workers s !! k with
  | Some WRange =>
      match requestChan s with
      | S n =>
          Some (mkState (main s) n (closed s) (<[k := WGet]> (workers s))
                  (results s) (acc s)
                  (mkHistory (placed h) (S (taken h)) (issued h) (emitted h) (consumed h)))
      | O =>
          if closed s then
            Some (mkState (main s) O (closed s) (<[k := WDone]> (workers s))
                    (results s) (acc s) h)
          else None
      end
  | Some WGet =>
      Some (mkState (main s) (requestChan s) (closed s)
              (<[k := WSend (attempt resp duration)]> (workers s))
              (results s) (acc s)
              (mkHistory (placed h) (taken h) (S (issued h)) (emitted h) (consumed h)))
  | Some (WSend r) =>
      if Z.of_nat (length (results s)) <? Requests st then
        Some (mkState (main s) (requestChan s) (closed s)
                (<[k := WRange]> (workers s))
                (results s ++ [r]) (acc s)
                (mkHistory (placed h) (taken h) (issued h) (S (emitted h)) (consumed h)))
      else None
  | Some WDone | None => None
  end.

Inductive Action : Type :=
| ActMain (elapsed : Z)
| ActWorker (k : nat) (resp : GetResponse) (duration : Z).

Definition step_fn (st : StressTest) (a : Action) (s : State) : option State :=
  match a with
  | ActMain elapsed => main_step st elapsed s
  | ActWorker k resp duration => worker_step st k resp duration s
  end.

Definition step (st : StressTest) (s s' : State) : Prop :=
  exists a, step_fn st a s = Some s'.

(** States [Run] can reach from [init_state], that is, once its two
    channels are made. *)
Inductive reachable (st : StressTest) : State -> Prop :=
| reach_init : reachable st init_state
| reach_step s s' : reachable st s -> step st s s' -> reachable st s'.

(** A schedule run from a state; [None] when it asks for an operation
    that cannot be done. *)
Fixpoint exec (st : StressTest) (sched : list Action) (s : State) : option State :=
  match sched with
  | [] => Some s
  | a :: sched' =>
      match step_fn st a s with
      | Some s' => exec st sched' s'
      | None => None
      end
  end.

(** Everything has ended: [Run] has returned and every worker too. *)
Definition worker_done (w : Worker) : bool :=
  match w with WDone => true | _ => false end.

Definition finished (s : State) : bool :=
  match main s with
  | MReturn _ => forallb worker_done (workers s)
  | _ => false
  end.

(** [tally f ws]: the sum of [f] over the workers. *)
Definition tally (f : Worker -> nat) (ws : list Worker) : nat :=
  foldr (fun w n => (f w + n)%nat) 0%nat ws.

Definition getting (w : Worker) : nat :=
  match w with WGet => 1%nat | _ => 0%nat end.

Definition sending (w : Worker) : nat :=
  match w with WSend _ => 1%nat | _ => 0%nat end.

Definition returned (w : Worker) : nat :=
  match w with WDone => 1%nat | _ => 0%nat end.

(** A bound on the number of steps still possible. *)
Definition worker_weight (w : Worker) : nat :=
  match w with
  | WRange => 1%nat
  | WGet => 4%nat
  | WSend _ => 3%nat
  | WDone => 0%nat
  end.

Definition main_weight (st : StressTest) (m : Main) : nat :=
  match m with
  | MFill i => (5 * Z.to_nat (Requests st - i) + 2 * Z.to_nat (Concurrency st) + 3)%nat
  | MSpawn i => (2 * Z.to_nat (Concurrency st - i) + 2)%nat
  | MCollect _ => 1%nat
  | MReturn _ | MPanic => 0%nat
  end.

Definition weight (st : StressTest) (s : State) : nat :=
  (main_weight st (main s) + 4 * requestChan s
   + tally worker_weight (workers s) + length (results s))%nat.

(** The result a worker is about to send, if any, is [error_blank]. *)
Definition worker_blank (w : Worker) : Prop :=
  match w with
  | WSend r => error_blank r
  | _ => True
  end.

(** All results in the system are [error_blank]. *)
Definition errors_blank (s : State) : Prop :=
  Forall worker_blank (workers s) /\
  Forall error_blank (results s) /\
  Forall error_blank (consumed (hist s)).

(** Every token is in exactly one place: still queued, held by a worker
    before or after its call, buffered as a result, or consumed. *)
Definition accounting (s : State) : Prop :=
  let h := hist s in
  placed h = (requestChan s + taken h)%nat /\
  taken h = (issued h + tally getting (workers s))%nat /\
  issued h = (emitted h + tally sending (workers s))%nat /\
  emitted h = (length (results s) + length (consumed h))%nat.

(** Where the main goroutine is, and what that says about the rest. *)
Definition phase (st : StressTest) (s : State) : Prop :=
  let h := hist s in
  match main s with
  | MFill i =>
      0 <= i <= Requests st /\ Z.of_nat (placed h) = i /\
      closed s = false /\ workers s = [] /\ consumed h = []
  | MSpawn i =>
      0 <= i <= Concurrency st /\ Z.of_nat (length (workers s)) = i /\
      closed s = true /\ Z.of_nat (placed h) = Requests st /\ consumed h = []
  | MCollect i =>
      0 <= i <= Requests st /\ Z.of_nat (length (consumed h)) = i /\
      Z.of_nat (length (workers s)) = Concurrency st /\
      closed s = true /\ Z.of_nat (placed h) = Requests st
  | MReturn r =>
      Z.of_nat (length (consumed h)) = Requests st /\
      Z.of_nat (length (workers s)) = Concurrency st /\
      closed s = true /\ Z.of_nat (placed h) = Requests st /\
      exists elapsed, finalize (acc s) elapsed = Some r
  | MPanic => False
  end.

(** The invariant of [Run]. *)
Definition inv (st : StressTest) (s : State) : Prop :=
  phase st s /\
  accounting s /\
  acc s = collect (consumed (hist s)) /\
  (requestChan s = 0%nat \/ tally returned (workers s) = 0%nat).

(** ** The start of [Run]

    Before the filling loop [Run] makes its two channels,
    [results := make(chan Result, st.Requests)] and
    [requestChan := make(chan struct{}, st.Requests)].  [make] does not
    return when the size is negative or the buffer would take more
    bytes than the runtime can give to a channel: it panics
    ("makechan: size out of range"), or the allocation fails.  That
    amount belongs to the runtime and the machine, not to the program,
    and is a parameter of the model. *)
Record Runtime : Type := mkRuntime {
  max_chan_mem : Z   (* bytes available to the buffer of one channel *)
}.

(** [make(chan T, size)] for a [T] of [elemsize] bytes: [false] when it
    does not return. *)
Definition makechan (rt : Runtime) (elemsize size : Z) : bool :=
  (0 <=? size) && (elemsize * size <=? max_chan_mem rt).

(** Bytes of a [Result] (an [int], a [time.Duration] and an [error]
    interface value) and of a [struct{}]. *)
Definition Result_size : Z := 32.
Definition token_size : Z := 0.

(** [Run] up to the filling loop: [None] when one of the two [make]
    does not return, in which case nothing else of [Run] is executed
    and the program ends there. *)
Definition Run_start (rt : Runtime) (st : StressTest) : option State :=
  if makechan rt Result_size (Requests st) then
    if makechan rt token_size (Requests st) then Some init_state else None
  else None.

(** The most a Go runtime on a 64-bit platform ever gives to a channel
    buffer: [maxAlloc - hchanSize], with [maxAlloc = 2 ^ 48] and a
    channel header of 96 bytes.  A machine with less memory to spare
    gives less. *)
Definition go_max : Runtime := {| max_chan_mem := 2 ^ 48 - 96 |}.

(** ** [main] *)

(** The three flags after [flag.Parse]: [None] when the flag was not
    given, in which case the declared default is read. *)
Record Flags : Type := mkFlags {
  flag_url         : option string;
  flag_requests    : option Z;
  flag_concurrency : option Z
}.

Definition url_of (f : Flags) : string := default EmptyString (flag_url f).
Definition requests_of (f : Flags) : Z := default 0 (flag_requests f).
Definition concurrency_of (f : Flags) : Z := default 0 (flag_concurrency f).

(** The test of the [if] in [main]. *)
Definition invalid (url : string) (requests concurrency : Z) : bool :=
  String.eqb url EmptyString || (requests <=? 0) || (concurrency <=? 0).

(** What is seen of [main]: the lines it writes, the report it hands to
    [printReport], or the panic that ends it. *)
Inductive Output : Type :=
| Println (line : string)
| PrintReport (r : Report)
| Panic.

Definition usage : list Output :=
  [ Println "Erro: Todos os parâmetros são obrigatórios e devem ser válidos";
    Println "Uso: ./stress-test --url=<URL> --requests=<N> --concurrency=<N>" ].

(** [main_runs rt f out n]: [main] with flags [f], on the runtime [rt],
    can end with [out], having issued [n] HTTP requests by then. *)
Inductive main_runs (rt : Runtime) (f : Flags) : list Output -> nat -> Prop :=
| main_rejects :
    invalid (url_of f) (requests_of f) (concurrency_of f) = true ->
    main_runs rt f usage 0%nat
| main_panics :
    invalid (url_of f) (requests_of f) (concurrency_of f) = false ->
    Run_start rt (NewStressTest (url_of f) (requests_of f) (concurrency_of f)) = None ->
    main_runs rt f [Panic] 0%nat
| main_reports s r :
    invalid (url_of f) (requests_of f) (concurrency_of f) = false ->
    Run_start rt (NewStressTest (url_of f) (requests_of f) (concurrency_of f))
      = Some init_state ->
    reachable (NewStressTest (url_of f) (requests_of f) (concurrency_of f)) s ->
    main s = MReturn r ->
    main_runs rt f [PrintReport r] (issued (hist s)).

(** A configuration [main] lets through, with values of type [int]. *)
Definition valid_config (st : StressTest) : Prop :=
  0 < Requests st <= max_int64 /\ 0 < Concurrency st <= max_int64.

(** ** Reading a report *)

(** How many of the results are responses with status code [k]. *)
Definition count_status (k : Z) (l : list Result) : Z :=
  count_if (fun r => negb (is_error r) && (StatusCode r =? k)) l.

(** The durations of the responses, added up without wrap-around. *)
Definition response_total (l : list Result) : Z :=
  foldr Z.add 0 (response_durations l).

(** ** [printReport]

    The function is modelled by the calls of [fmt.Println] and
    [fmt.Printf] it makes: each call with its text or format, as
    written in the source, and its arguments.  The percentage of a
    status line is the floating-point value
    [float64(count)/float64(report.TotalRequests)*100]; the argument
    [ArgPercent] carries its two integer operands. *)
Inductive Arg : Type :=
| ArgInt (n : Z)
| ArgDuration (d : Z)
| ArgPercent (count total : Z).

Inductive Write : Type :=
| Wln (text : string)
| Wf (format : string) (args : list Arg).

(** The body of the loop over [report.StatusCodes]. *)
Definition status_line (total : Z) (entry : Z * Z) : Write :=
  Wf "Status %d: %d requests (%.2f%%)\n"
     [ArgInt (fst entry); ArgInt (snd entry); ArgPercent (snd entry) total].

(** [printReport], with the order in which [range] visits the entries
    of the map given as [order]. *)
Definition printReport (order : list (Z * Z)) (report : Report) : list Write :=
  [ Wln "\n=== Relatório do Teste de Carga ===";
    Wf "Tempo Total: %v\n" [ArgDuration (TotalTime report)];
    Wf "Total de Requests: %d\n" [ArgInt (TotalRequests report)];
    Wf "Requests com Sucesso (200): %d\n" [ArgInt (SuccessfulRequests report)];
    Wf "Requests com Falha: %d\n" [ArgInt (FailedRequests report)];
    Wln "\nMétricas de Duração:";
    Wf "Duração Mínima: %v\n" [ArgDuration (MinDuration report)];
    Wf "Duração Máxima: %v\n" [ArgDuration (MaxDuration report)];
    Wf "Duração Média: %v\n" [ArgDuration (AvgDuration report)];
    Wln "\nDistribuição de Status HTTP:" ]
  ++ (status_line (TotalRequests report) <$> order).

(** [range] over a map visits every entry once, in an order that is
    not specified. *)
Definition prints (report : Report) (out : list Write) : Prop :=
  exists order,
    Permutation order (map_to_list (StatusCodes report)) /\
    out = printReport order report.

(** ** Sample runs *)

(** Two responses with status 200, one with status 404 and one
    transport error. *)
Definition mixed : list Result :=
  [ mkResult 200 30 None;
    mkResult 404 10 None;
    mkResult 0 0 (Some "connection refused"%string);
    mkResult 200 50 None ].

(** One response with status 200 and one with status 404, both
    measured at ten nanoseconds. *)
Definition ok_and_missing : list Result :=
  [ mkResult 200 10 None; mkResult 404 10 None ].

(** A single response with status 404. *)
Definition only_missing : list Result := [ mkResult 404 5 None ].

(** Every attempt failed in transport. *)
Definition unreachable : list Result :=
  [ mkResult 0 0 (Some "timeout"%string); mkResult 0 0 (Some "timeout"%string) ].

(** One request, three workers. *)
Definition one_request : StressTest :=
  NewStressTest "http://localhost:8080" 1 3.

(** A complete run of [one_request]: worker 0 gets the only token while
    the other workers are still being started, and its call returns
    [resp] after forty nanoseconds. *)
Definition one_request_schedule (resp : GetResponse) : list Action :=
  let m := ActMain 1000 in
  let w k := ActWorker k resp 40 in
  [ m; m; m; w 0%nat; m; m; w 0%nat; w 1%nat; m; w 0%nat; m; m; w 0%nat; w 2%nat ].

(** The server answers 200. *)
Definition one_request_end : State :=
  default init_state (exec one_request (one_request_schedule (GetOk 200)) init_state).

(** The call times out. *)
Definition one_request_failed : State :=
  default init_state
    (exec one_request (one_request_schedule (GetErr "timeout")) init_state).

(** Flags without [--url], and flags that pass the validation. *)
Definition flags_without_url : Flags := mkFlags None (Some 10) (Some 2).

Definition flags_one_request : Flags :=
  mkFlags (Some "http://localhost:8080"%string) (Some 1) (Some 3).

(** Three responses with status 200. *)
Definition all_ok : list Result :=
  [ mkResult 200 30 None; mkResult 200 50 None; mkResult 200 40 None ].

(** Flags that ask for two requests by one worker. *)
Definition flags_two_requests : Flags :=
  mkFlags (Some "http://localhost:8080"%string) (Some 2) (Some 1).

(** A request count that passes the validation of [main] and is far
    beyond what any channel can hold. *)
Definition huge_test : StressTest :=
  NewStressTest "http://localhost:8080" (2 ^ 62) 1.


(** * Properties *)

(** ** Machine arithmetic *)

(** The two powers, written out for [lia]. *)
Ltac int64_consts :=
  unfold in_int64, min_int64, max_int64 in *;
  change (2 ^ 63) with 9223372036854775808 in *;
  change (2 ^ 64) with 18446744073709551616 in *.

Lemma wrap64_small z : in_int64 z -> wrap64 z = z.
Proof.
  unfold wrap64. intros Hz. int64_consts.
  rewrite Z.mod_small; lia.
Qed.

Lemma incr_small z : 0 <= z < max_int64 -> incr z = z + 1.
Proof.
  intros Hz. unfold incr, add64. apply wrap64_small.
  int64_consts. lia.
Qed.

(** An increment always changes the counter, also when it wraps. *)
Lemma incr_neq z : incr z <> z.
Proof.
  unfold incr, add64, wrap64. int64_consts. intros H.
  pose proof (Z_div_mod_eq_full (z + 1 + 9223372036854775808) 18446744073709551616).
  lia.
Qed.

(** Wrapped additions can be reordered: both sides are the sum modulo
    [2 ^ 64]. *)
Lemma add64_swap t a b : add64 (add64 t a) b = add64 (add64 t b) a.
Proof.
  unfold add64, wrap64. f_equal.
  replace ((t + a + 2 ^ 63) mod 2 ^ 64 - 2 ^ 63 + b + 2 ^ 63)
    with ((t + a + 2 ^ 63) mod 2 ^ 64 + b) by lia.
  replace ((t + b + 2 ^ 63) mod 2 ^ 64 - 2 ^ 63 + a + 2 ^ 63)
    with ((t + b + 2 ^ 63) mod 2 ^ 64 + a) by lia.
  rewrite !Zplus_mod_idemp_l. f_equal. lia.
Qed.

Lemma div64_total a b : b > 0 -> exists q, div64 a b = Some q.
Proof.
  intros Hb. unfold div64.
  destruct (Z.eqb_spec b 0) as [->|_]; [lia | eauto].
Qed.

(** ** The histogram *)

Lemma hist_sum_empty : hist_sum ∅ = 0.
Proof. unfold hist_sum. apply map_fold_empty. Qed.

Lemma hist_sum_fresh (m : gmap Z Z) k v :
  m !! k = None -> hist_sum (<[k := v]> m) = v + hist_sum m.
Proof.
  intros Hk. unfold hist_sum.
  apply (map_fold_insert_L (fun _ v acc => v + acc)); [intros; lia | exact Hk].
Qed.

Lemma hist_sum_present (m : gmap Z Z) k v :
  m !! k = Some v -> hist_sum m = v + hist_sum (delete k m).
Proof.
  intros Hk. unfold hist_sum.
  apply (map_fold_delete_L (fun _ v acc => v + acc)); [intros; lia | exact Hk].
Qed.

(** Writing a key changes the sum by the difference of the counts. *)
Lemma hist_sum_insert (m : gmap Z Z) k v :
  hist_sum (<[k := v]> m) = hist_sum m - map_get m k + v.
Proof.
  unfold map_get. destruct (m !! k) as [old|] eqn:Hk; simpl.
  - rewrite <- insert_delete_eq, hist_sum_fresh by apply lookup_delete_eq.
    rewrite (hist_sum_present m k old Hk). lia.
  - rewrite hist_sum_fresh by exact Hk. lia.
Qed.

Lemma hist_sum_nonneg (m : gmap Z Z) :
  (forall k v, m !! k = Some v -> 0 <= v) -> 0 <= hist_sum m.
Proof.
  induction m as [|k v m Hk IH] using map_ind; intros Hpos.
  - rewrite hist_sum_empty. lia.
  - rewrite hist_sum_fresh by exact Hk.
    assert (0 <= v) by (apply (Hpos k); apply lookup_insert_eq).
    assert (0 <= hist_sum m); [|lia].
    apply IH. intros k' v' Hk'. apply (Hpos k').
    rewrite lookup_insert_ne; [exact Hk'|]. intros ->. congruence.
Qed.

(** No count is larger than the sum, as long as none is negative. *)
Lemma map_get_le_sum (m : gmap Z Z) k :
  (forall k v, m !! k = Some v -> 0 <= v) -> 0 <= map_get m k <= hist_sum m.
Proof.
  intros Hpos. unfold map_get. destruct (m !! k) as [v|] eqn:Hk; simpl.
  - rewrite (hist_sum_present m k v Hk).
    assert (0 <= hist_sum (delete k m)).
    { apply hist_sum_nonneg. intros k' v' Hk'.
      apply (Hpos k'). rewrite lookup_delete_Some in Hk'. tauto. }
    specialize (Hpos k v Hk). lia.
  - split; [lia | apply hist_sum_nonneg, Hpos].
Qed.

(** ** The collection loop *)

Lemma collect_snoc l x : collect (l ++ [x]) = collect_step (collect l) x.
Proof. unfold collect. apply foldl_snoc. Qed.

Lemma count_if_snoc p l x :
  count_if p (l ++ [x]) = count_if p l + (if p x then 1 else 0).
Proof.
  unfold count_if. rewrite filter_app, length_app, Nat2Z.inj_add. f_equal.
  destruct (p x) eqn:Hp.
  - rewrite filter_cons_True by exact Hp. reflexivity.
  - rewrite filter_cons_False by congruence. reflexivity.
Qed.

Lemma count_if_bounds p l : 0 <= count_if p l <= Z.of_nat (length l).
Proof.
  unfold count_if.
  pose proof (length_filter (fun r => p r = true) l). lia.
Qed.

(** A transport error leaves histogram, extremes and running total as
    they are. *)
Lemma collect_step_error a x :
  is_error x = true ->
  StatusCodes (report (collect_step a x)) = StatusCodes (report a) /\
  MinDuration (report (collect_step a x)) = MinDuration (report a) /\
  MaxDuration (report (collect_step a x)) = MaxDuration (report a) /\
  totalDuration (collect_step a x) = totalDuration a.
Proof.
  unfold is_error, collect_step. destruct (Error x); [simpl; auto | discriminate].
Qed.

(** A response moves the extremes towards its duration, whatever its
    status code. *)
Lemma collect_step_response a x :
  is_error x = false ->
  MinDuration (report (collect_step a x)) = Z.min (Duration x) (MinDuration (report a)) /\
  MaxDuration (report (collect_step a x)) = Z.max (Duration x) (MaxDuration (report a)) /\
  totalDuration (collect_step a x) = add64 (totalDuration a) (Duration x).
Proof.
  unfold is_error, collect_step. destruct (Error x); [discriminate | simpl].
  intros _. rewrite Z.gtb_ltb. repeat split.
  - destruct (Z.ltb_spec (Duration x) (MinDuration (report a))); lia.
  - destruct (Z.ltb_spec (MaxDuration (report a)) (Duration x)); lia.
Qed.

Lemma collect_step_avg a x :
  AvgDuration (report (collect_step a x)) = AvgDuration (report a).
Proof. unfold collect_step. destruct (Error x); reflexivity. Qed.

Lemma collect_avg l : AvgDuration (report (collect l)) = 0.
Proof.
  induction l as [|x l IH] using rev_ind; [reflexivity|].
  rewrite collect_snoc, collect_step_avg. exact IH.
Qed.

Lemma foldr_min_base d b ds :
  foldr Z.min (Z.min d b) ds = Z.min d (foldr Z.min b ds).
Proof. induction ds as [|e ds IH]; simpl; [reflexivity | rewrite IH; lia]. Qed.

Lemma foldr_max_base d b ds :
  foldr Z.max (Z.max d b) ds = Z.max d (foldr Z.max b ds).
Proof. induction ds as [|e ds IH]; simpl; [reflexivity | rewrite IH; lia]. Qed.

(** The extremes after the loop, from any starting accumulator. *)
Lemma foldl_extremes l a :
  MinDuration (report (foldl collect_step a l))
    = foldr Z.min (MinDuration (report a)) (response_durations l) /\
  MaxDuration (report (foldl collect_step a l))
    = foldr Z.max (MaxDuration (report a)) (response_durations l).
Proof.
  revert a. induction l as [|x l IH]; intros a; [split; reflexivity|].
  simpl foldl. destruct (IH (collect_step a x)) as [IHmin IHmax].
  rewrite IHmin, IHmax. unfold response_durations.
  destruct (is_error x) eqn:Hx.
  - rewrite filter_cons_False by congruence.
    destruct (collect_step_error a x Hx) as (_ & -> & -> & _). split; reflexivity.
  - rewrite filter_cons_True by exact Hx.
    destruct (collect_step_response a x Hx) as (-> & -> & _).
    rewrite fmap_cons. simpl foldr. rewrite foldr_min_base, foldr_max_base.
    split; reflexivity.
Qed.

(** The counters and the histogram after the loop.  The bound is the
    one the loop has: it runs [st.Requests] times, an [int]. *)
Lemma collect_counts l :
  Z.of_nat (length l) <= max_int64 ->
  TotalRequests (report (collect l)) = Z.of_nat (length l) /\
  SuccessfulRequests (report (collect l)) = count_success l /\
  FailedRequests (report (collect l)) = Z.of_nat (length l) - count_success l /\
  hist_sum (StatusCodes (report (collect l))) = Z.of_nat (length l) - count_errors l /\
  (forall k v, StatusCodes (report (collect l)) !! k = Some v -> 0 <= v).
Proof.
  induction l as [|x l IH] using rev_ind; intros Hlen.
  - simpl. rewrite hist_sum_empty. unfold count_success, count_errors, count_if. simpl.
    repeat split; try reflexivity. intros k v Hk. rewrite lookup_empty in Hk. discriminate.
  - rewrite length_app in *. simpl length in *.
    destruct IH as (HT & HS & HF & HH & HP); [lia|].
    unfold count_success, count_errors in *.
    rewrite !count_if_snoc, collect_snoc.
    pose proof (count_if_bounds is_success l) as Bs.
    pose proof (count_if_bounds is_error l) as Be.
    pose proof (map_get_le_sum _ (StatusCode x) HP) as Bg.
    assert (He : is_error x = match Error x with Some _ => true | None => false end)
      by reflexivity.
    assert (Hs : is_success x = negb (is_error x) && (StatusCode x =? StatusOK))
      by reflexivity.
    rewrite Hs, He. clear Hs He.
    unfold collect_step. destruct (Error x); simpl.
    + rewrite HT, HS, HF, HH, !incr_small by lia. repeat split; try lia. exact HP.
    + unfold map_incr. rewrite hist_sum_insert, HT, HS, HF, HH.
      rewrite (incr_small (map_get _ _)) by lia.
      destruct (StatusCode x =? StatusOK); rewrite !incr_small by lia;
        (repeat split; try lia);
        intros k v; rewrite lookup_insert; case_decide;
          try (intros [= <-]; lia); apply HP.
Qed.

(** The end of [Run] never divides by zero. *)
Lemma finalize_total a elapsed : exists r, finalize a elapsed = Some r.
Proof.
  unfold finalize. destruct (SuccessfulRequests (report a) >? 0) eqn:Hs; [|eauto].
  destruct (div64_total (totalDuration a) (SuccessfulRequests (report a))) as [q ->];
    [|eauto].
  rewrite Z.gtb_ltb in Hs. apply Z.ltb_lt in Hs. lia.
Qed.

(** Apart from the elapsed time and the average, the report returned
    is the one the loop built. *)
Lemma finalize_fields a elapsed r :
  finalize a elapsed = Some r ->
  TotalRequests r = TotalRequests (report a) /\
  SuccessfulRequests r = SuccessfulRequests (report a) /\
  FailedRequests r = FailedRequests (report a) /\
  StatusCodes r = StatusCodes (report a) /\
  MinDuration r = MinDuration (report a) /\
  MaxDuration r = MaxDuration (report a) /\
  TotalTime r = elapsed.
Proof.
  unfold finalize. destruct (SuccessfulRequests (report a) >? 0).
  - destruct (div64 _ _); [|discriminate]. intros [= <-]. simpl. tauto.
  - intros [= <-]. simpl. tauto.
Qed.

(** Two iterations of the loop can be exchanged. *)
Lemma map_incr_swap (m : gmap Z Z) j k :
  map_incr (map_incr m j) k = map_incr (map_incr m k) j.
Proof.
  unfold map_incr, map_get. destruct (decide (j = k)) as [->|Hjk]; [reflexivity|].
  rewrite !lookup_insert_ne by congruence.
  apply insert_insert_ne. congruence.
Qed.

Lemma min_step_swap m d e :
  (if e <? (if d <? m then d else m) then e else if d <? m then d else m)
  = (if d <? (if e <? m then e else m) then d else if e <? m then e else m).
Proof.
  destruct (Z.ltb_spec d m), (Z.ltb_spec e m);
    repeat match goal with
           | |- context [?x <? ?y] => destruct (Z.ltb_spec x y)
           end; lia.
Qed.

Lemma max_step_swap m d e :
  (if e >? (if d >? m then d else m) then e else if d >? m then d else m)
  = (if d >? (if e >? m then e else m) then d else if e >? m then e else m).
Proof.
  rewrite !Z.gtb_ltb.
  destruct (Z.ltb_spec m d), (Z.ltb_spec m e);
    repeat match goal with
           | |- context [?x <? ?y] => destruct (Z.ltb_spec x y)
           end; lia.
Qed.

Lemma collect_step_swap a x y :
  collect_step (collect_step a x) y = collect_step (collect_step a y) x.
Proof.
  destruct a as [r t], x as [cx dx ex], y as [cy dy ey].
  unfold collect_step; simpl.
  destruct ex, ey; simpl;
    destruct (cx =? StatusOK), (cy =? StatusOK); try reflexivity;
    rewrite (add64_swap t dx dy), (map_incr_swap (StatusCodes r) cx cy),
      (min_step_swap (MinDuration r) dx dy), (max_step_swap (MaxDuration r) dx dy);
    reflexivity.
Qed.

Lemma foldl_collect_permutation l l' :
  Permutation l l' ->
  forall a, foldl collect_step a l = foldl collect_step a l'.
Proof.
  induction 1 as [|x l l' _ IH|x y l|l l' l'' _ IH1 _ IH2]; intros a; simpl.
  - reflexivity.
  - apply IH.
  - rewrite collect_step_swap. reflexivity.
  - rewrite IH1. apply IH2.
Qed.

Lemma total_of_snoc l x : total_of (l ++ [x]) = total_of l + Duration x.
Proof.
  unfold total_of. induction l as [|y l IH]; simpl; [lia | rewrite IH; lia].
Qed.

Lemma total_of_nonneg l : Forall ok_response l -> 0 <= total_of l.
Proof.
  induction 1 as [|x l Hx _ IH]; simpl; [lia|].
  destruct Hx as (_ & _ & Hd). lia.
Qed.

(** When every result is a response with status 200 and the durations
    add up within [int64], the loop counts them all as successes and
    the running total is their sum, which lies between the number of
    results times the minimum and times the maximum. *)
Lemma collect_all_ok l :
  Forall ok_response l ->
  Z.of_nat (length l) <= max_int64 -> total_of l <= max_int64 ->
  SuccessfulRequests (report (collect l)) = Z.of_nat (length l) /\
  totalDuration (collect l) = total_of l /\
  Z.of_nat (length l) * MinDuration (report (collect l)) <= total_of l /\
  total_of l <= Z.of_nat (length l) * MaxDuration (report (collect l)).
Proof.
  induction l as [|x l IH] using rev_ind; intros Hok Hlen Htot.
  - simpl. lia.
  - apply Forall_app in Hok as [Hok Hx].
    apply Forall_cons in Hx as [(He & Hc & Hd) _].
    rewrite length_app in *. simpl length in *. rewrite total_of_snoc in *.
    pose proof (total_of_nonneg l Hok) as Hpos.
    destruct IH as (HS & HT & Hmin & Hmax); [exact Hok | lia | lia |].
    rewrite collect_snoc.
    assert (Hne : is_error x = false) by (unfold is_error; rewrite He; reflexivity).
    destruct (collect_step_response (collect l) x Hne) as (-> & -> & ->).
    assert (SuccessfulRequests (report (collect_step (collect l) x))
            = incr (SuccessfulRequests (report (collect l)))) as ->.
    { unfold collect_step. rewrite He, Hc. reflexivity. }
    rewrite HS, HT, incr_small by lia.
    unfold add64. rewrite wrap64_small by (int64_consts; lia).
    repeat split; nia.
Qed.

(** The loop on [mixed]: four results, two successes, two failures,
    and a histogram with two entries that add up to three. *)
Example collect_mixed :
  TotalRequests (report (collect mixed)) = 4 /\
  SuccessfulRequests (report (collect mixed)) = 2 /\
  FailedRequests (report (collect mixed)) = 2 /\
  StatusCodes (report (collect mixed)) !! 200 = Some 2 /\
  StatusCodes (report (collect mixed)) !! 404 = Some 1 /\
  StatusCodes (report (collect mixed)) !! 0 = None /\
  hist_sum (StatusCodes (report (collect mixed))) = 3.
Proof. vm_compute. repeat split; reflexivity. Qed.

(** The loop on [unreachable]: nothing succeeds and the histogram stays
    empty. *)
Example collect_unreachable :
  SuccessfulRequests (report (collect unreachable)) = 0 /\
  FailedRequests (report (collect unreachable)) = 2 /\
  StatusCodes (report (collect unreachable)) = ∅.
Proof. repeat split; reflexivity. Qed.

(** ** Claims about the aggregation *)

(** C1, as the spec states it, fails: a response whose status is not
    200 does change the duration statistics.  After the single result
    [only_missing] (status 404, five nanoseconds) the minimum is no
    longer the initial sentinel, the maximum no longer zero and the
    running total no longer zero. *)
Lemma non200_response_moves_duration_stats :
  ~ (forall (l : list Result) (x : Result),
       Error x = None -> StatusCode x <> StatusOK ->
       MinDuration (report (collect (l ++ [x]))) = MinDuration (report (collect l)) /\
       MaxDuration (report (collect (l ++ [x]))) = MaxDuration (report (collect l)) /\
       totalDuration (collect (l ++ [x])) = totalDuration (collect l)).
Proof.
  intros H.
  destruct (H [] (mkResult 404 5 None) eq_refl) as (Hmin & _ & _).
  - unfold StatusOK. simpl. lia.
  - vm_compute in Hmin. discriminate.
Qed.

(** C1 (amended): for every sequence of consumed outcomes, the minimum
    and the maximum duration of the report are taken over all outcomes
    without a transport error, whatever their status code, starting from
    the sentinel and from zero; an outcome with a transport error
    changes none of the minimum, the maximum and the running total. *)
Theorem duration_extremes_over_responses (l : list Result) (elapsed : Z) :
  (exists r, aggregate l elapsed = Some r /\
     MinDuration r = foldr Z.min max_int64 (response_durations l) /\
     MaxDuration r = foldr Z.max 0 (response_durations l)) /\
  (forall a x, is_error x = true ->
     MinDuration (report (collect_step a x)) = MinDuration (report a) /\
     MaxDuration (report (collect_step a x)) = MaxDuration (report a) /\
     totalDuration (collect_step a x) = totalDuration a).
Proof.
  split.
  - unfold aggregate. destruct (finalize_total (collect l) elapsed) as [r Hr].
    exists r. split; [exact Hr|].
    destruct (finalize_fields _ _ _ Hr) as (_ & _ & _ & _ & -> & -> & _).
    apply (foldl_extremes l init_acc).
  - intros a x Hx. destruct (collect_step_error a x Hx) as (_ & H). exact H.
Qed.

Lemma duration_extremes_over_responses_witness :
  exists r, aggregate mixed 7 = Some r /\ MinDuration r = 10 /\ MaxDuration r = 50.
Proof.
  destruct (proj1 (duration_extremes_over_responses mixed 7)) as (r & Hr & Hmin & Hmax).
  exists r. split; [exact Hr|]. rewrite Hmin, Hmax. split; reflexivity.
Defined.

(** C2: for every sequence of consumed outcomes (as many as an [int]
    can count), the report has
    [SuccessfulRequests + FailedRequests = TotalRequests], and every
    iteration of the loop increments exactly one of the two counters. *)
Theorem success_plus_failed_is_total (l : list Result) (elapsed : Z) :
  Z.of_nat (length l) <= max_int64 ->
  (exists r, aggregate l elapsed = Some r /\
     SuccessfulRequests r + FailedRequests r = TotalRequests r /\
     TotalRequests r = Z.of_nat (length l)) /\
  (forall a x,
     (SuccessfulRequests (report (collect_step a x)) = incr (SuccessfulRequests (report a)) /\
      FailedRequests (report (collect_step a x)) = FailedRequests (report a)) \/
     (SuccessfulRequests (report (collect_step a x)) = SuccessfulRequests (report a) /\
      FailedRequests (report (collect_step a x)) = incr (FailedRequests (report a)))).
Proof.
  intros Hlen. split.
  - unfold aggregate. destruct (finalize_total (collect l) elapsed) as [r Hr].
    exists r. split; [exact Hr|].
    destruct (finalize_fields _ _ _ Hr) as (-> & -> & -> & _).
    destruct (collect_counts l Hlen) as (-> & -> & -> & _). lia.
  - intros a x. unfold collect_step.
    destruct (Error x); simpl; [right; auto|].
    destruct (StatusCode x =? StatusOK); [left | right]; auto.
Qed.

Lemma success_plus_failed_is_total_witness :
  Z.of_nat (length mixed) <= max_int64 /\
  exists r, aggregate mixed 7 = Some r /\
    SuccessfulRequests r + FailedRequests r = TotalRequests r /\
    TotalRequests r = Z.of_nat (length mixed).
Proof.
  assert (H : Z.of_nat (length mixed) <= max_int64) by (vm_compute; discriminate).
  split; [exact H|].
  exact (proj1 (success_plus_failed_is_total mixed 7 H)).
Defined.

(** C3: for every sequence of consumed outcomes, the counts of the
    histogram add up to [TotalRequests] minus the number of outcomes
    with a transport error, and such an outcome leaves the histogram as
    it is. *)
Theorem histogram_counts_responses (l : list Result) (elapsed : Z) :
  Z.of_nat (length l) <= max_int64 ->
  (exists r, aggregate l elapsed = Some r /\
     hist_sum (StatusCodes r) = TotalRequests r - count_errors l) /\
  (forall a x, is_error x = true ->
     StatusCodes (report (collect_step a x)) = StatusCodes (report a)).
Proof.
  intros Hlen. split.
  - unfold aggregate. destruct (finalize_total (collect l) elapsed) as [r Hr].
    exists r. split; [exact Hr|].
    destruct (finalize_fields _ _ _ Hr) as (-> & _ & _ & -> & _).
    destruct (collect_counts l Hlen) as (-> & _ & _ & -> & _). reflexivity.
  - intros a x Hx. apply (collect_step_error a x Hx).
Qed.

Lemma histogram_counts_responses_witness :
  Z.of_nat (length mixed) <= max_int64 /\
  exists r, aggregate mixed 7 = Some r /\
    hist_sum (StatusCodes r) = TotalRequests r - count_errors mixed.
Proof.
  assert (H : Z.of_nat (length mixed) <= max_int64) by (vm_compute; discriminate).
  split; [exact H|].
  exact (proj1 (histogram_counts_responses mixed 7 H)).
Defined.

(** C4: for every sequence of consumed outcomes with no successful one,
    [Run] returns a report whose average is zero, unchanged from its
    initial value.  The division is guarded: whatever the accumulator,
    the end of [Run] never divides by zero, and when
    [SuccessfulRequests > 0] does not hold the report is built without
    the running total. *)
Theorem no_success_no_division (l : list Result) (elapsed : Z) :
  SuccessfulRequests (report (collect l)) = 0 ->
  (exists r, aggregate l elapsed = Some r /\ AvgDuration r = 0) /\
  (forall a e, finalize a e <> None) /\
  (forall a e, SuccessfulRequests (report a) <= 0 ->
     forall total, finalize (mkAcc (report a) total) e = finalize a e /\
       option_map AvgDuration (finalize a e) = Some (AvgDuration (report a))).
Proof.
  intros Hzero. repeat split.
  - unfold aggregate, finalize. rewrite Hzero. simpl.
    eexists. split; [reflexivity|]. simpl. apply collect_avg.
  - intros a e Hnone. destruct (finalize_total a e) as [r Hr]. congruence.
  - unfold finalize. simpl. rewrite Z.gtb_ltb.
    destruct (Z.ltb_spec 0 (SuccessfulRequests (report a))); [lia | reflexivity].
  - unfold finalize. rewrite Z.gtb_ltb.
    destruct (Z.ltb_spec 0 (SuccessfulRequests (report a))); [lia | reflexivity].
Qed.

Lemma no_success_no_division_witness :
  SuccessfulRequests (report (collect unreachable)) = 0 /\
  exists r, aggregate unreachable 7 = Some r /\ AvgDuration r = 0.
Proof.
  assert (H : SuccessfulRequests (report (collect unreachable)) = 0) by reflexivity.
  split; [exact H|].
  exact (proj1 (no_success_no_division unreachable 7 H)).
Defined.

(** The average does lie between the extremes on runs in which every
    result is a response with status 200 (durations not negative, their sum within
    [int64]): there the running total and its divisor range over the
    same results. *)
Lemma average_between_extremes_when_all_ok (l : list Result) (elapsed : Z) :
  Forall ok_response l -> l <> [] ->
  Z.of_nat (length l) <= max_int64 -> total_of l <= max_int64 ->
  exists r, aggregate l elapsed = Some r /\
    MinDuration r <= AvgDuration r <= MaxDuration r.
Proof.
  intros Hok Hne Hlen Htot.
  destruct (collect_all_ok l Hok Hlen Htot) as (HS & HT & Hmin & Hmax).
  pose proof (total_of_nonneg l Hok) as Hpos.
  assert (Hn : 0 < Z.of_nat (length l)) by (destruct l; [congruence | simpl; lia]).
  unfold aggregate, finalize, div64. rewrite HS, HT, Z.gtb_ltb.
  destruct (Z.ltb_spec 0 (Z.of_nat (length l))); [|lia].
  destruct (Z.eqb_spec (Z.of_nat (length l)) 0); [lia|].
  eexists. split; [reflexivity|]. simpl.
  rewrite Z.quot_div_nonneg by lia.
  assert (Hq : 0 <= total_of l / Z.of_nat (length l) <= total_of l).
  { split; [apply Z.div_pos; lia|]. apply Z.div_le_upper_bound; nia. }
  rewrite wrap64_small by (int64_consts; lia).
  split.
  - apply Z.div_le_lower_bound; lia.
  - apply Z.div_le_upper_bound; lia.
Qed.

(** C5 does not hold of the code.  The running total adds up the
    durations of all responses, but it is divided by the number of
    responses with status 200.  On [ok_and_missing], one response with
    status 200 and one with status 404, each of ten nanoseconds, the
    report has minimum ten, maximum ten and average twenty. *)
Theorem average_above_maximum :
  exists r, aggregate ok_and_missing 0 = Some r /\
    SuccessfulRequests r = 1 /\
    MinDuration r = 10 /\ MaxDuration r = 10 /\ AvgDuration r = 20 /\
    ~ (MinDuration r <= AvgDuration r <= MaxDuration r).
Proof.
  eexists. split; [reflexivity|]. vm_compute.
  repeat split; try reflexivity. intros [_ H]. apply H. reflexivity.
Qed.

(** C8, as the spec states it, fails: after the single response
    [only_missing] (status 404) no outcome is successful, yet minimum
    and maximum are both five nanoseconds. *)
Lemma no_success_yet_extremes_moved :
  ~ (forall (l : list Result) (elapsed : Z) (r : Report),
       count_success l = 0 -> aggregate l elapsed = Some r ->
       MinDuration r = max_int64 /\ MaxDuration r = 0).
Proof.
  intros H.
  destruct (H only_missing 0 _ eq_refl eq_refl) as [Hmin _].
  vm_compute in Hmin. discriminate.
Qed.

(** C8 (amended): the minimum starts at the largest [int64] and the
    maximum at zero, and for every sequence of consumed outcomes that
    all carry a transport error the report still has them there. *)
Theorem extremes_stay_without_responses (l : list Result) (elapsed : Z) :
  Forall (fun x => is_error x = true) l ->
  MinDuration init_report = max_int64 /\ MaxDuration init_report = 0 /\
  exists r, aggregate l elapsed = Some r /\
    MinDuration r = max_int64 /\ MaxDuration r = 0.
Proof.
  intros Hall. split; [reflexivity|]. split; [reflexivity|].
  unfold aggregate. destruct (finalize_total (collect l) elapsed) as [r Hr].
  exists r. split; [exact Hr|].
  destruct (finalize_fields _ _ _ Hr) as (_ & _ & _ & _ & -> & -> & _).
  destruct (foldl_extremes l init_acc) as [Hmin Hmax].
  unfold collect. rewrite Hmin, Hmax. unfold response_durations.
  replace (filter (fun r => is_error r = false) l) with (@nil Result);
    [split; reflexivity|].
  clear -Hall. induction Hall as [|x l Hx _ IH]; [reflexivity|].
  rewrite filter_cons_False by congruence. exact IH.
Qed.

Lemma extremes_stay_without_responses_witness :
  Forall (fun x => is_error x = true) unreachable /\
  exists r, aggregate unreachable 7 = Some r /\
    MinDuration r = max_int64 /\ MaxDuration r = 0.
Proof.
  assert (H : Forall (fun x => is_error x = true) unreachable)
    by (repeat constructor).
  split; [exact H|].
  exact (proj2 (proj2 (extremes_stay_without_responses unreachable 7 H))).
Defined.

(** C9: the aggregation does not depend on the order of arrival: two
    sequences of outcomes that are permutations of each other give the
    same report (counters, histogram, minimum, maximum and average). *)
Theorem aggregate_order_independent (l l' : list Result) (elapsed : Z) :
  Permutation l l' -> aggregate l elapsed = aggregate l' elapsed.
Proof.
  intros Hperm. unfold aggregate, collect.
  rewrite (foldl_collect_permutation l l' Hperm init_acc). reflexivity.
Qed.

Lemma aggregate_order_independent_witness :
  Permutation mixed (rev mixed) /\ aggregate mixed 7 = aggregate (rev mixed) 7.
Proof.
  assert (H : Permutation mixed (rev mixed)) by apply Permutation_rev.
  split; [exact H|].
  exact (aggregate_order_independent mixed (rev mixed) 7 H).
Defined.

(** ** The goroutines of [Run] *)

Lemma tally_app f ws ws' : tally f (ws ++ ws') = (tally f ws + tally f ws')%nat.
Proof. induction ws as [|w ws IH]; simpl; [reflexivity | rewrite IH; lia]. Qed.

(** Replacing worker [k] moves the tally by the difference. *)
Lemma tally_insert f (ws : list Worker) k w w' :
  ws !! k = Some w ->
  (tally f (<[k := w']> ws) + f w = tally f ws + f w')%nat.
Proof.
  revert k. induction ws as [|v ws IH]; intros k Hk; [discriminate|].
  destruct k as [|k]; simpl in *.
  - injection Hk as ->. lia.
  - specialize (IH k Hk). lia.
Qed.

(** Some worker has not returned yet. *)
Lemma unfinished_worker (ws : list Worker) :
  forallb worker_done ws = false ->
  exists k w, ws !! k = Some w /\ worker_done w = false.
Proof.
  induction ws as [|v ws IH]; simpl; [discriminate|].
  destruct (worker_done v) eqn:Hv; simpl.
  - intros H. destruct (IH H) as (k & w & Hk & Hw). exists (S k), w. auto.
  - intros _. exists 0%nat, v. auto.
Qed.

Lemma all_done_tally (ws : list Worker) :
  forallb worker_done ws = true ->
  tally getting ws = 0%nat /\ tally sending ws = 0%nat /\
  tally returned ws = length ws.
Proof.
  induction ws as [|v ws IH]; simpl; [auto|].
  destruct v; simpl; try discriminate. intros H.
  destruct (IH H) as (-> & -> & ->). auto.
Qed.

Section Run.

Variable st : StressTest.
Hypothesis Hvalid : valid_config st.

Lemma inv_init : inv st init_state.
Proof.
  destruct Hvalid as [[HN _] _].
  unfold inv, phase, accounting; simpl. repeat split; auto; lia.
Qed.

Lemma inv_main_step elapsed s s' :
  inv st s -> main_step st elapsed s = Some s' -> inv st s'.
Proof.
  destruct Hvalid as [[HN HN'] [HC HC']].
  intros (Hph & (A1 & A2 & A3 & A4) & Hacc & Hret).
  unfold main_step, phase in *. destruct (main s) as [i|i|i|r|] eqn:Hm.
  - destruct Hph as (Hi & Hpl & Hcl & Hws & Hco).
    destruct (Z.ltb_spec i (Requests st)).
    + destruct (Z.ltb_spec (Z.of_nat (requestChan s)) (Requests st)); [|discriminate].
      intros [= <-]. unfold inv, phase, accounting; simpl.
      rewrite incr_small by lia. rewrite Hws in *. simpl in *.
      repeat split; auto; lia.
    + intros [= <-]. unfold inv, phase, accounting; simpl.
      rewrite Hws in *. simpl in *. repeat split; auto; lia.
  - destruct Hph as (Hi & Hlen & Hcl & Hpl & Hco).
    destruct (Z.ltb_spec i (Concurrency st)).
    + intros [= <-]. unfold inv, phase, accounting; simpl.
      rewrite incr_small by lia. rewrite !tally_app, length_app. simpl.
      repeat split; auto; lia.
    + intros [= <-]. unfold inv, phase, accounting; simpl.
      rewrite Hco in *. simpl in *. repeat split; auto; lia.
  - destruct Hph as (Hi & Hlen & Hws & Hcl & Hpl).
    destruct (Z.ltb_spec i (Requests st)).
    + destruct (results s) as [|result rest] eqn:Hres; [discriminate|].
      intros [= <-]. unfold inv, phase, accounting; simpl.
      rewrite incr_small by lia. rewrite length_app, collect_snoc, Hacc.
      simpl in *. repeat split; auto; lia.
    + intros [= <-]. unfold inv, phase, accounting; simpl.
      destruct (finalize_total (acc s) elapsed) as [r Hr]. rewrite Hr.
      repeat split; eauto; lia.
  - discriminate.
  - discriminate.
Qed.

Lemma inv_worker_step k resp duration s s' :
  inv st s -> worker_step st k resp duration s = Some s' -> inv st s'.
Proof.
  intros (Hph & (A1 & A2 & A3 & A4) & Hacc & Hret).
  unfold worker_step. destruct (workers s !! k) as [w|] eqn:Hk; [|discriminate].
  assert (Hmain : forall w', phase st s ->
            forall q h' rs,
              placed h' = placed (hist s) -> consumed h' = consumed (hist s) ->
              phase st (mkState (main s) q (closed s) (<[k := w']> (workers s))
                          rs (acc s) h')).
  { intros w' Hp q h' rs Hpl Hco. unfold phase in *. simpl.
    rewrite Hpl, Hco, length_insert.
    destruct (main s); auto.
    destruct Hp as (_ & _ & _ & Hws & _). rewrite Hws in Hk. discriminate. }
  pose proof (fun w' => tally_insert getting (workers s) k w w' Hk) as Tg.
  pose proof (fun w' => tally_insert sending (workers s) k w w' Hk) as Ts.
  pose proof (fun w' => tally_insert returned (workers s) k w w' Hk) as Tr.
  destruct w as [| |r|].
  - destruct (requestChan s) as [|n] eqn:Hq.
    + destruct (closed s) eqn:Hcl; [|discriminate].
      intros [= <-]. split; [|split; [|split]]; simpl.
      * apply Hmain; auto.
      * specialize (Tg WDone). specialize (Ts WDone).
        unfold accounting; simpl in *. lia.
      * exact Hacc.
      * left. reflexivity.
    + intros [= <-]. split; [|split; [|split]]; simpl.
      * apply Hmain; auto.
      * specialize (Tg WGet). specialize (Ts WGet).
        unfold accounting; simpl in *. lia.
      * exact Hacc.
      * specialize (Tr WGet). simpl in *. destruct Hret; [lia | right; lia].
  - intros [= <-]. split; [|split; [|split]]; simpl.
    + apply Hmain; auto.
    + specialize (Tg (WSend (attempt resp duration))).
      specialize (Ts (WSend (attempt resp duration))).
      unfold accounting; simpl in *. lia.
    + exact Hacc.
    + specialize (Tr (WSend (attempt resp duration))). simpl in *.
      destruct Hret; [left | right]; lia.
  - destruct (Z.ltb_spec (Z.of_nat (length (results s))) (Requests st)); [|discriminate].
    intros [= <-]. split; [|split; [|split]]; simpl.
    + apply Hmain; auto.
    + specialize (Tg WRange). specialize (Ts WRange).
      unfold accounting; simpl in *. rewrite length_app. simpl. lia.
    + exact Hacc.
    + specialize (Tr WRange). simpl in *. destruct Hret; [left | right]; lia.
  - discriminate.
Qed.

Lemma inv_step s s' : inv st s -> step st s s' -> inv st s'.
Proof.
  intros Hinv [[elapsed | k resp duration] Ha]; simpl in Ha.
  - exact (inv_main_step elapsed s s' Hinv Ha).
  - exact (inv_worker_step k resp duration s s' Hinv Ha).
Qed.

Lemma inv_reachable s : reachable st s -> inv st s.
Proof.
  induction 1 as [|s s' _ IH Hstep]; [apply inv_init | exact (inv_step s s' IH Hstep)].
Qed.

Lemma tally_lookup_le f (ws : list Worker) k w :
  ws !! k = Some w -> (f w <= tally f ws)%nat.
Proof.
  revert k. induction ws as [|v ws IH]; intros k Hk; [discriminate|].
  destruct k as [|k]; simpl in *.
  - injection Hk as ->. lia.
  - specialize (IH k Hk). lia.
Qed.

(** Every step uses up some of the weight. *)
Lemma step_fn_weight a s s' :
  inv st s -> step_fn st a s = Some s' -> (weight st s' < weight st s)%nat.
Proof.
  destruct Hvalid as [[HN HN'] [HC HC']].
  intros (Hph & _) Ha. unfold weight.
  destruct a as [elapsed | k resp duration]; simpl in Ha.
  - unfold main_step, phase in *. destruct (main s) as [i|i|i|r|] eqn:Hm.
    + destruct Hph as (Hi & _).
      destruct (Z.ltb_spec i (Requests st)).
      * destruct (Z.of_nat (requestChan s) <? Requests st); [|discriminate].
        injection Ha as <-. simpl. rewrite incr_small by lia. lia.
      * injection Ha as <-. simpl. lia.
    + destruct Hph as (Hi & _).
      destruct (Z.ltb_spec i (Concurrency st)).
      * injection Ha as <-. simpl. rewrite incr_small by lia.
        rewrite tally_app. simpl. lia.
      * injection Ha as <-. simpl. lia.
    + destruct (i <? Requests st).
      * destruct (results s) as [|result rest] eqn:Hres; [discriminate|].
        injection Ha as <-. simpl. lia.
      * injection Ha as <-. simpl. destruct (finalize (acc s) elapsed); simpl; lia.
    + discriminate.
    + discriminate.
  - unfold worker_step in Ha.
    destruct (workers s !! k) as [w|] eqn:Hk; [|discriminate].
    pose proof (fun w' => tally_insert worker_weight (workers s) k w w' Hk) as Tw.
    destruct w as [| |r|].
    + destruct (requestChan s) as [|n] eqn:Hq.
      * destruct (closed s); [|discriminate].
        injection Ha as <-. specialize (Tw WDone). simpl in *. lia.
      * injection Ha as <-. specialize (Tw WGet). simpl in *. lia.
    + injection Ha as <-. specialize (Tw (WSend (attempt resp duration))).
      simpl in *. lia.
    + destruct (Z.of_nat (length (results s)) <? Requests st); [|discriminate].
      injection Ha as <-. specialize (Tw WRange). simpl in *.
      rewrite length_app. simpl. lia.
    + discriminate.
Qed.

(** Once [requestChan] is closed, a worker that has not returned can
    always do its next operation: in particular its send never finds
    the [results] buffer full. *)
Lemma worker_can_step k w s :
  inv st s -> closed s = true -> Z.of_nat (placed (hist s)) = Requests st ->
  workers s !! k = Some w -> worker_done w = false ->
  exists s', step st s s'.
Proof.
  intros (_ & (A1 & A2 & A3 & A4) & _) Hcl Hpl Hk Hw.
  assert (exists s', worker_step st k (GetErr EmptyString) 0 s = Some s') as [s' Hs'].
  { unfold worker_step. rewrite Hk. destruct w as [| |r|].
    - destruct (requestChan s); [rewrite Hcl|]; eauto.
    - eauto.
    - pose proof (tally_lookup_le sending _ _ _ Hk) as Hle. simpl in Hle.
      destruct (Z.ltb_spec (Z.of_nat (length (results s))) (Requests st)); [eauto | lia].
    - discriminate. }
  exists s', (ActWorker k (GetErr EmptyString) 0). exact Hs'.
Qed.

(** [Run] cannot deadlock. *)
Lemma progress s : inv st s -> finished s = false -> exists s', step st s s'.
Proof.
  destruct Hvalid as [[HN HN'] [HC HC']].
  intros Hinv Hfin. pose proof Hinv as (Hph & (A1 & A2 & A3 & A4) & _ & Hret).
  assert (Hmain : forall s', main_step st 0 s = Some s' -> exists s', step st s s').
  { intros s' Hs'. exists s', (ActMain 0). exact Hs'. }
  unfold finished in Hfin. unfold phase in Hph. unfold main_step in Hmain.
  destruct (main s) as [i|i|i|r|] eqn:Hm.
  - destruct Hph as (Hi & Hpl & _).
    destruct (Z.ltb_spec i (Requests st)); [|eauto].
    destruct (Z.ltb_spec (Z.of_nat (requestChan s)) (Requests st)); [eauto | lia].
  - destruct (i <? Concurrency st); eauto.
  - destruct Hph as (Hi & Hlen & Hws & Hcl & Hpl).
    destruct (Z.ltb_spec i (Requests st)); [|eauto].
    destruct (results s) as [|result rest] eqn:Hres; [|eauto].
    destruct (forallb worker_done (workers s)) eqn:Hall.
    + destruct (all_done_tally _ Hall) as (Hg & Hs & Hr).
      simpl in A4. destruct Hret; lia.
    + destruct (unfinished_worker _ Hall) as (k & w & Hk & Hw).
      exact (worker_can_step k w s Hinv Hcl Hpl Hk Hw).
  - destruct Hph as (_ & _ & Hcl & Hpl & _).
    destruct (unfinished_worker _ Hfin) as (k & w & Hk & Hw).
    exact (worker_can_step k w s Hinv Hcl Hpl Hk Hw).
  - contradiction.
Qed.


(** What holds when [Run] returns. *)
Lemma at_return s r :
  inv st s -> main s = MReturn r ->
  closed s = true /\ requestChan s = 0%nat /\ results s = [] /\
  Z.of_nat (placed (hist s)) = Requests st /\
  Z.of_nat (taken (hist s)) = Requests st /\
  Z.of_nat (issued (hist s)) = Requests st /\
  Z.of_nat (emitted (hist s)) = Requests st /\
  Z.of_nat (length (consumed (hist s))) = Requests st /\
  TotalRequests r = Requests st.
Proof.
  destruct Hvalid as [[HN HN'] _].
  intros (Hph & (A1 & A2 & A3 & A4) & Hacc & _) Hm.
  unfold phase in Hph. rewrite Hm in Hph.
  destruct Hph as (Hco & _ & Hcl & Hpl & elapsed & Hr).
  destruct (finalize_fields _ _ _ Hr) as (HT & _).
  rewrite Hacc in HT.
  destruct (collect_counts (consumed (hist s))) as (HT' & _); [lia|].
  assert (length (results s) = 0%nat) as Hres by lia.
  repeat split; try lia; try assumption.
  destruct (results s); [reflexivity | discriminate].
Qed.

End Run.

Lemma exec_reachable st sched s s' :
  reachable st s -> exec st sched s = Some s' -> reachable st s'.
Proof.
  revert s. induction sched as [|a sched IH]; simpl; intros s Hs.
  - intros [= <-]. exact Hs.
  - destruct (step_fn st a s) as [s1|] eqn:Ha; [|discriminate].
    apply IH. apply (reach_step st s s1 Hs). exists a. exact Ha.
Qed.

Lemma error_blank_attempt resp duration : error_blank (attempt resp duration).
Proof. destruct resp; unfold error_blank; simpl; [auto | discriminate]. Qed.

(** Results with a transport error are blank wherever they are: held
    by a worker, buffered in the channel, or consumed. *)
Lemma errors_blank_reachable st s : reachable st s -> errors_blank s.
Proof.
  induction 1 as [|s s' _ (Hw & Hr & Hc) [a Ha]].
  - unfold errors_blank. simpl. auto.
  - destruct a as [elapsed | k resp duration]; simpl in Ha.
    + unfold main_step in Ha. destruct (main s).
      * destruct (_ <? _); [destruct (_ <? _)|]; try discriminate;
          injection Ha as <-; split; auto.
      * destruct (_ <? _); injection Ha as <-; unfold errors_blank; simpl;
          repeat split; auto.
        apply Forall_app. split; [exact Hw | constructor; [exact I | constructor]].
      * destruct (_ <? _).
        -- destruct (results s) as [|x rest] eqn:Hres; [discriminate|].
           injection Ha as <-. unfold errors_blank. simpl.
           apply Forall_cons in Hr as [Hx Hr]. repeat split; auto.
           apply Forall_app. split; [exact Hc | constructor; [exact Hx | constructor]].
        -- injection Ha as <-. split; auto.
      * discriminate.
      * discriminate.
    + unfold worker_step in Ha.
      destruct (workers s !! k) as [w|] eqn:Hk; [|discriminate].
      pose proof (proj1 (Forall_lookup _ _) Hw k w Hk) as Hwk.
      destruct w as [| |r|].
      * destruct (requestChan s); [destruct (closed s); [|discriminate]|];
          injection Ha as <-; unfold errors_blank; simpl; repeat split; auto;
          apply Forall_insert; simpl; auto.
      * injection Ha as <-. unfold errors_blank. simpl. repeat split; auto.
        apply Forall_insert; [exact Hw | apply error_blank_attempt].
      * destruct (_ <? _); [|discriminate].
        injection Ha as <-. unfold errors_blank. simpl. repeat split; auto.
        -- apply Forall_insert; simpl; auto.
        -- apply Forall_app. split; [exact Hr | constructor; [exact Hwk | constructor]].
      * discriminate.
Qed.

(** The two [make] of a valid configuration succeed exactly when the
    buffer of [results] fits. *)
Lemma Run_start_fits rt st :
  valid_config st ->
  (Run_start rt st = Some init_state <-> Result_size * Requests st <= max_chan_mem rt) /\
  (Run_start rt st = None <-> max_chan_mem rt < Result_size * Requests st).
Proof.
  intros [[HN _] _]. unfold Run_start, makechan, Result_size, token_size.
  destruct (Z.leb_spec 0 (Requests st)); [|lia].
  destruct (Z.leb_spec (32 * Requests st) (max_chan_mem rt));
    destruct (Z.leb_spec (0 * Requests st) (max_chan_mem rt)); simpl;
    (split; split; intros ?; try discriminate; try reflexivity; try lia).
Qed.

(** C6, as the spec states it, fails: [huge_test] is a valid
    configuration (2 ^ 62 requests, one worker), yet on every runtime
    that gives a channel no more than a 64-bit Go runtime ever does,
    [make(chan Result, st.Requests)] panics: no token is placed and no
    report is returned. *)
Lemma huge_request_count_panics :
  valid_config huge_test /\
  forall rt, max_chan_mem rt <= max_chan_mem go_max ->
    Run_start rt huge_test = None /\
    ~ (exists s r, Run_start rt huge_test = Some init_state /\
         reachable huge_test s /\ main s = MReturn r /\
         TotalRequests r = Requests huge_test).
Proof.
  assert (Hv : valid_config huge_test) by (vm_compute; intuition discriminate).
  split; [exact Hv|]. intros rt Hrt.
  assert (Hnone : Run_start rt huge_test = None).
  { apply (Run_start_fits rt huge_test Hv).
    change (max_chan_mem rt <= 281474976710560) in Hrt.
    change (max_chan_mem rt < 147573952589676412928). lia. }
  split; [exact Hnone|]. intros (s & r & Hsome & _). congruence.
Qed.

(** C6 (amended): for every valid configuration, [Run] panics before
    placing any token exactly when the runtime cannot make the
    [results] channel with capacity [st.Requests]; when it can, then in
    every state [Run] reaches, under any interleaving of the goroutines
    and any answers of the HTTP client: each token placed is still
    queued, held by a worker, buffered as a result or consumed, and
    never more than [st.Requests] are placed; the collection loop has
    folded exactly the results consumed so far; unless everything has
    ended some goroutine can take a step (no deadlock, whatever
    [st.Concurrency] is) and every step lowers a finite bound; and when
    [Run] returns, the queue is closed and empty, exactly
    [st.Requests] tokens were placed and taken, one request was issued
    and one result emitted for each, all were consumed, and
    [TotalRequests] of the report is [st.Requests]. *)
Theorem run_consumes_every_request (rt : Runtime) (st : StressTest) :
  valid_config st ->
  (Run_start rt st = None <-> max_chan_mem rt < Result_size * Requests st) /\
  (Run_start rt st = Some init_state ->
   forall s, reachable st s ->
     (accounting s /\ Z.of_nat (placed (hist s)) <= Requests st /\
      acc s = collect (consumed (hist s))) /\
     main s <> MPanic /\
     (finished s = false -> exists s', step st s s') /\
     (forall s', step st s s' -> (weight st s' < weight st s)%nat) /\
     (forall r, main s = MReturn r ->
        closed s = true /\ requestChan s = 0%nat /\ results s = [] /\
        Z.of_nat (placed (hist s)) = Requests st /\
        Z.of_nat (taken (hist s)) = Requests st /\
        Z.of_nat (issued (hist s)) = Requests st /\
        Z.of_nat (emitted (hist s)) = Requests st /\
        Z.of_nat (length (consumed (hist s))) = Requests st /\
        TotalRequests r = Requests st)).
Proof.
  intros Hvalid. split; [apply (Run_start_fits rt st Hvalid)|].
  intros _ s Hreach.
  pose proof (inv_reachable st Hvalid s Hreach) as Hinv.
  pose proof Hinv as (Hph & Hacct & Hacc & _).
  refine (conj (conj Hacct (conj _ Hacc)) (conj _ (conj _ (conj _ _)))).
  - unfold phase in Hph. destruct (main s); lia.
  - intros Hm. unfold phase in Hph. rewrite Hm in Hph. exact Hph.
  - exact (progress st Hvalid s Hinv).
  - intros s' [a Ha]. exact (step_fn_weight st Hvalid a s s' Hinv Ha).
  - intros r Hm. exact (at_return st Hvalid s r Hinv Hm).
Qed.

Lemma run_consumes_every_request_witness :
  valid_config one_request /\
  Run_start go_max one_request = Some init_state /\
  reachable one_request one_request_end /\
  finished one_request_end = true /\
  forall r, main one_request_end = MReturn r ->
    Z.of_nat (issued (hist one_request_end)) = 1 /\ TotalRequests r = 1.
Proof.
  assert (Hv : valid_config one_request) by (vm_compute; intuition discriminate).
  assert (Hs : Run_start go_max one_request = Some init_state) by reflexivity.
  assert (Hr : reachable one_request one_request_end).
  { apply (exec_reachable one_request (one_request_schedule (GetOk 200)) init_state);
      [apply reach_init | vm_compute; reflexivity]. }
  split; [exact Hv|]. split; [exact Hs|]. split; [exact Hr|].
  split; [vm_compute; reflexivity|].
  intros r Hm.
  destruct (proj2 (run_consumes_every_request go_max one_request Hv) Hs one_request_end Hr)
    as (_ & _ & _ & _ & Hret).
  destruct (Hret r Hm) as (_ & _ & _ & _ & _ & Hi & _ & _ & HT).
  split; [exact Hi | exact HT].
Defined.

(** ** [main] *)

Lemma invalid_true url requests concurrency :
  invalid url requests concurrency = true <->
  url = EmptyString \/ requests <= 0 \/ concurrency <= 0.
Proof.
  unfold invalid. rewrite !orb_true_iff, String.eqb_eq, !Z.leb_le. tauto.
Qed.

Lemma invalid_false url requests concurrency :
  invalid url requests concurrency = false <->
  ~ (url = EmptyString \/ requests <= 0 \/ concurrency <= 0).
Proof.
  rewrite <- invalid_true. destruct (invalid url requests concurrency); split;
    congruence.
Qed.




(** ** The results of failed attempts *)

(** C10: the result a worker emits for a transport failure has status
    code zero and duration zero, whatever time was measured for the
    attempt; in every state [Run] can reach, every result with a
    transport error that is buffered or was consumed is of that form;
    and consuming such a result leaves the histogram, the minimum, the
    maximum and the running total as they were. *)
Theorem failed_attempt_carries_no_duration (e : string) (duration : Z) :
  (StatusCode (attempt (GetErr e) duration) = 0 /\
   Duration (attempt (GetErr e) duration) = 0 /\
   Error (attempt (GetErr e) duration) = Some e) /\
  (forall duration', attempt (GetErr e) duration' = attempt (GetErr e) duration) /\
  (forall st s, reachable st s ->
     Forall error_blank (results s) /\ Forall error_blank (consumed (hist s))) /\
  (forall a,
     StatusCodes (report (collect_step a (attempt (GetErr e) duration)))
       = StatusCodes (report a) /\
     MinDuration (report (collect_step a (attempt (GetErr e) duration)))
       = MinDuration (report a) /\
     MaxDuration (report (collect_step a (attempt (GetErr e) duration)))
       = MaxDuration (report a) /\
     totalDuration (collect_step a (attempt (GetErr e) duration)) = totalDuration a).
Proof.
  split; [repeat split; reflexivity|].
  split; [reflexivity|].
  split.
  - intros st s Hs. destruct (errors_blank_reachable st s Hs) as (_ & Hr & Hc).
    split; assumption.
  - intros a. repeat split; reflexivity.
Qed.

Lemma failed_attempt_carries_no_duration_witness :
  reachable one_request one_request_failed /\
  consumed (hist one_request_failed) = [mkResult 0 0 (Some "timeout"%string)] /\
  Forall error_blank (consumed (hist one_request_failed)).
Proof.
  assert (Hr : reachable one_request one_request_failed).
  { apply (exec_reachable one_request (one_request_schedule (GetErr "timeout")) init_state);
      [apply reach_init | vm_compute; reflexivity]. }
  split; [exact Hr|]. split; [vm_compute; reflexivity|].
  destruct (failed_attempt_carries_no_duration "timeout" 40) as (_ & _ & H & _).
  exact (proj2 (H one_request one_request_failed Hr)).
Defined.

(** * Further properties *)

(** ** What the counters and the histogram hold *)

Lemma count_if_zero p l :
  Forall (fun x => p x = false) l -> count_if p l = 0.
Proof.
  unfold count_if. induction 1 as [|x l Hx _ IH]; [reflexivity|].
  rewrite filter_cons_False by congruence. exact IH.
Qed.

Lemma count_if_all p l :
  Forall (fun x => p x = true) l -> count_if p l = Z.of_nat (length l).
Proof.
  unfold count_if. induction 1 as [|x l Hx _ IH]; [reflexivity|].
  rewrite filter_cons_True by exact Hx. simpl length. lia.
Qed.

(** The entry of every status code after the loop: absent when no
    response had that code, its number of responses otherwise. *)
Lemma collect_histogram l :
  Z.of_nat (length l) <= max_int64 ->
  forall k, StatusCodes (report (collect l)) !! k
            = if count_status k l =? 0 then None else Some (count_status k l).
Proof.
  induction l as [|x l IH] using rev_ind; intros Hlen k.
  - simpl. apply lookup_empty.
  - rewrite length_app in Hlen. simpl length in Hlen.
    unfold count_status in *. rewrite count_if_snoc, collect_snoc.
    pose proof (count_if_bounds
                  (fun r => negb (is_error r) && (StatusCode r =? StatusCode x)) l) as Bx.
    pose proof (count_if_bounds
                  (fun r => negb (is_error r) && (StatusCode r =? k)) l) as Bk.
    assert (He : is_error x = match Error x with Some _ => true | None => false end)
      by reflexivity.
    rewrite He. unfold collect_step. destruct (Error x); simpl.
    + rewrite Z.add_0_r. apply IH. lia.
    + unfold map_incr, map_get. rewrite lookup_insert.
      destruct (decide (StatusCode x = k)) as [->|Hne].
      * rewrite Z.eqb_refl, IH by lia.
        destruct (Z.eqb_spec (count_if (fun r => negb (is_error r) && (StatusCode r =? k)) l) 0)
          as [->|Hc]; simpl.
        -- reflexivity.
        -- rewrite incr_small by lia.
           destruct (Z.eqb_spec (count_if (fun r => negb (is_error r) && (StatusCode r =? k)) l + 1) 0);
             [lia | reflexivity].
      * destruct (Z.eqb_spec (StatusCode x) k); [contradiction|].
        rewrite Z.add_0_r. apply IH. lia.
Qed.

Lemma collect_map_get l k :
  Z.of_nat (length l) <= max_int64 ->
  map_get (StatusCodes (report (collect l))) k = count_status k l.
Proof.
  intros Hlen. unfold map_get. rewrite (collect_histogram l Hlen k).
  destruct (Z.eqb_spec (count_status k l) 0) as [->|_]; reflexivity.
Qed.

(** X1: after the loop the histogram holds, for every status code, the
    number of responses that had it, and it has no entry for a code
    that no response had. *)
Theorem histogram_entry_counts_status (l : list Result) (elapsed k : Z) :
  Z.of_nat (length l) <= max_int64 ->
  exists r, aggregate l elapsed = Some r /\
    map_get (StatusCodes r) k = count_status k l /\
    (StatusCodes r !! k = None <-> count_status k l = 0).
Proof.
  intros Hlen. unfold aggregate.
  destruct (finalize_total (collect l) elapsed) as [r Hr].
  exists r. split; [exact Hr|].
  destruct (finalize_fields _ _ _ Hr) as (_ & _ & _ & -> & _).
  split; [exact (collect_map_get l k Hlen)|].
  rewrite (collect_histogram l Hlen k).
  destruct (Z.eqb_spec (count_status k l) 0); split; congruence.
Qed.

Lemma histogram_entry_counts_status_witness :
  Z.of_nat (length mixed) <= max_int64 /\
  exists r, aggregate mixed 7 = Some r /\ map_get (StatusCodes r) 200 = 2.
Proof.
  assert (H : Z.of_nat (length mixed) <= max_int64) by (vm_compute; discriminate).
  split; [exact H|].
  destruct (histogram_entry_counts_status mixed 7 200 H) as (r & Hr & Hget & _).
  exists r. split; [exact Hr|]. rewrite Hget. reflexivity.
Defined.

(** X2: the number of successful requests is the entry of status 200
    in the histogram, and the failed ones are all the others. *)
Theorem successes_are_the_200_entry (l : list Result) (elapsed : Z) :
  Z.of_nat (length l) <= max_int64 ->
  exists r, aggregate l elapsed = Some r /\
    SuccessfulRequests r = map_get (StatusCodes r) StatusOK /\
    FailedRequests r = TotalRequests r - map_get (StatusCodes r) StatusOK.
Proof.
  intros Hlen. unfold aggregate.
  destruct (finalize_total (collect l) elapsed) as [r Hr].
  exists r. split; [exact Hr|].
  destruct (finalize_fields _ _ _ Hr) as (-> & -> & -> & -> & _).
  destruct (collect_counts l Hlen) as (-> & -> & -> & _).
  rewrite (collect_map_get l StatusOK Hlen). split; reflexivity.
Qed.

Lemma successes_are_the_200_entry_witness :
  Z.of_nat (length mixed) <= max_int64 /\
  exists r, aggregate mixed 7 = Some r /\
    SuccessfulRequests r = map_get (StatusCodes r) StatusOK.
Proof.
  assert (H : Z.of_nat (length mixed) <= max_int64) by (vm_compute; discriminate).
  split; [exact H|].
  destruct (successes_are_the_200_entry mixed 7 H) as (r & Hr & Hs & _).
  exists r. split; [exact Hr | exact Hs].
Defined.

(** X3: when every attempt fails in transport, the report counts all
    of them as failed, none as successful, has an empty histogram and
    a zero average. *)
Theorem all_attempts_failed (l : list Result) (elapsed : Z) :
  Forall (fun x => is_error x = true) l ->
  Z.of_nat (length l) <= max_int64 ->
  exists r, aggregate l elapsed = Some r /\
    TotalRequests r = Z.of_nat (length l) /\
    SuccessfulRequests r = 0 /\
    FailedRequests r = Z.of_nat (length l) /\
    StatusCodes r = ∅ /\
    AvgDuration r = 0.
Proof.
  intros Hall Hlen.
  assert (Hnone : forall q, count_if (fun r => negb (is_error r) && q r) l = 0).
  { intros q. apply count_if_zero. eapply Forall_impl; [exact Hall|].
    intros x Hx. simpl. rewrite Hx. reflexivity. }
  destruct (collect_counts l Hlen) as (HT & HS & HF & _).
  unfold count_success in *.
  assert (Hs0 : count_if is_success l = 0) by apply (Hnone (fun r => StatusCode r =? StatusOK)).
  unfold aggregate, finalize. rewrite HS, Hs0. simpl.
  eexists. split; [reflexivity|]. simpl. rewrite HT, HF, Hs0.
  repeat split; try lia.
  - apply map_eq. intros k. rewrite (collect_histogram l Hlen k), lookup_empty.
    unfold count_status. rewrite (Hnone (fun r => StatusCode r =? k)). reflexivity.
  - apply collect_avg.
Qed.

Lemma all_attempts_failed_witness :
  Forall (fun x => is_error x = true) unreachable /\
  Z.of_nat (length unreachable) <= max_int64 /\
  exists r, aggregate unreachable 7 = Some r /\
    FailedRequests r = 2 /\ StatusCodes r = ∅.
Proof.
  assert (Ha : Forall (fun x => is_error x = true) unreachable) by (repeat constructor).
  assert (Hl : Z.of_nat (length unreachable) <= max_int64) by (vm_compute; discriminate).
  split; [exact Ha|]. split; [exact Hl|].
  destruct (all_attempts_failed unreachable 7 Ha Hl) as (r & Hr & _ & _ & Hf & Hc & _).
  exists r. split; [exact Hr|]. split; [exact Hf | exact Hc].
Defined.

(** X4: when every result is a response with status 200, all of them
    are counted as successful, none as failed, and the histogram is the
    single entry of status 200. *)
Theorem all_responses_ok (l : list Result) (elapsed : Z) :
  Forall (fun x => is_error x = false /\ StatusCode x = StatusOK) l ->
  l <> [] -> Z.of_nat (length l) <= max_int64 ->
  exists r, aggregate l elapsed = Some r /\
    SuccessfulRequests r = Z.of_nat (length l) /\
    FailedRequests r = 0 /\
    StatusCodes r = {[ StatusOK := Z.of_nat (length l) ]}.
Proof.
  intros Hall Hne Hlen.
  assert (Hn : 0 < Z.of_nat (length l)) by (destruct l; [congruence | simpl; lia]).
  assert (Hok : count_status StatusOK l = Z.of_nat (length l)).
  { apply count_if_all. eapply Forall_impl; [exact Hall|].
    intros x [Hx Hc]. simpl. rewrite Hx, Hc. reflexivity. }
  assert (Hother : forall k, k <> StatusOK -> count_status k l = 0).
  { intros k Hk. apply count_if_zero. eapply Forall_impl; [exact Hall|].
    intros x [Hx Hc]. cbv beta. rewrite Hx, Hc. cbn [negb andb].
    apply Z.eqb_neq. congruence. }
  destruct (collect_counts l Hlen) as (_ & HS & HF & _).
  change (count_success l) with (count_status StatusOK l) in HS, HF.
  unfold aggregate. destruct (finalize_total (collect l) elapsed) as [r Hr].
  exists r. split; [exact Hr|].
  destruct (finalize_fields _ _ _ Hr) as (_ & -> & -> & -> & _).
  rewrite HS, HF, Hok. repeat split; try lia.
  apply map_eq. intros k. rewrite (collect_histogram l Hlen k), lookup_singleton.
  destruct (decide (StatusOK = k)) as [<-|Hk].
  - rewrite Hok. destruct (Z.eqb_spec (Z.of_nat (length l)) 0); [lia | reflexivity].
  - rewrite (Hother k) by congruence. reflexivity.
Qed.

Lemma all_responses_ok_witness :
  Forall (fun x => is_error x = false /\ StatusCode x = StatusOK) all_ok /\
  all_ok <> [] /\ Z.of_nat (length all_ok) <= max_int64 /\
  exists r, aggregate all_ok 7 = Some r /\
    SuccessfulRequests r = 3 /\ StatusCodes r = {[ StatusOK := 3 ]}.
Proof.
  assert (Ha : Forall (fun x => is_error x = false /\ StatusCode x = StatusOK) all_ok)
    by (repeat constructor).
  assert (Hn : all_ok <> []) by discriminate.
  assert (Hl : Z.of_nat (length all_ok) <= max_int64) by (vm_compute; discriminate).
  split; [exact Ha|]. split; [exact Hn|]. split; [exact Hl|].
  destruct (all_responses_ok all_ok 7 Ha Hn Hl) as (r & Hr & Hs & _ & Hc).
  exists r. split; [exact Hr|]. split; [exact Hs | exact Hc].
Defined.

(** ** What the duration statistics hold *)

Lemma response_durations_In l d :
  In d (response_durations l) <->
  exists x, In x l /\ is_error x = false /\ Duration x = d.
Proof.
  unfold response_durations.
  rewrite <- list_elem_of_In, list_elem_of_fmap. split.
  - intros (x & -> & Hx). apply list_elem_of_filter in Hx as [He Hx].
    exists x. rewrite <- list_elem_of_In. auto.
  - intros (x & Hx & He & <-). exists x. split; [reflexivity|].
    apply list_elem_of_filter. rewrite list_elem_of_In. auto.
Qed.

Lemma foldr_min_le b ds d : In d ds -> foldr Z.min b ds <= d.
Proof.
  induction ds as [|e ds IH]; simpl; [contradiction|].
  intros [-> | Hd]; [lia | specialize (IH Hd); lia].
Qed.

Lemma foldr_max_ge b ds d : In d ds -> d <= foldr Z.max b ds.
Proof.
  induction ds as [|e ds IH]; simpl; [contradiction|].
  intros [-> | Hd]; [lia | specialize (IH Hd); lia].
Qed.

Lemma foldr_min_attained b ds :
  ds <> [] -> Forall (fun d => d <= b) ds -> In (foldr Z.min b ds) ds.
Proof.
  induction ds as [|e ds IH]; [congruence|]. intros _ Hall.
  apply Forall_cons in Hall as [He Hall]. simpl.
  destruct ds as [|e' ds'].
  - simpl. left. lia.
  - destruct (Z.min_spec e (foldr Z.min b (e' :: ds'))) as [[_ ->] | [_ ->]].
    + left. reflexivity.
    + right. apply IH; [discriminate | exact Hall].
Qed.

Lemma foldr_max_attained b ds :
  ds <> [] -> Forall (fun d => b <= d) ds -> In (foldr Z.max b ds) ds.
Proof.
  induction ds as [|e ds IH]; [congruence|]. intros _ Hall.
  apply Forall_cons in Hall as [He Hall]. simpl.
  destruct ds as [|e' ds'].
  - simpl. left. lia.
  - destruct (Z.max_spec e (foldr Z.max b (e' :: ds'))) as [[_ ->] | [_ ->]].
    + right. apply IH; [discriminate | exact Hall].
    + left. reflexivity.
Qed.

(** X5: the duration of every response that was consumed, whatever its
    status code, lies between the minimum and the maximum of the
    report. *)
Theorem response_between_extremes (l : list Result) (elapsed : Z) (x : Result) :
  In x l -> is_error x = false ->
  exists r, aggregate l elapsed = Some r /\
    MinDuration r <= Duration x <= MaxDuration r.
Proof.
  intros Hx He. unfold aggregate.
  destruct (finalize_total (collect l) elapsed) as [r Hr].
  exists r. split; [exact Hr|].
  destruct (finalize_fields _ _ _ Hr) as (_ & _ & _ & _ & -> & -> & _).
  destruct (foldl_extremes l init_acc) as [Hmin Hmax].
  unfold collect. rewrite Hmin, Hmax.
  assert (Hd : In (Duration x) (response_durations l))
    by (apply response_durations_In; eauto).
  split; [apply foldr_min_le | apply foldr_max_ge]; exact Hd.
Qed.

Lemma response_between_extremes_witness :
  In (mkResult 404 10 None) mixed /\
  exists r, aggregate mixed 7 = Some r /\ MinDuration r <= 10 <= MaxDuration r.
Proof.
  assert (Hx : In (mkResult 404 10 None) mixed) by (simpl; auto).
  split; [exact Hx|].
  exact (response_between_extremes mixed 7 (mkResult 404 10 None) Hx eq_refl).
Defined.

(** X6: when at least one response was consumed and the measured
    durations are not negative, the minimum and the maximum of the
    report are the durations of two of the responses: neither the
    initial sentinel nor the initial zero is left in the report. *)
Theorem extremes_are_measured (l : list Result) (elapsed : Z) (x : Result) :
  In x l -> is_error x = false ->
  Forall (fun y => 0 <= Duration y <= max_int64) l ->
  exists r, aggregate l elapsed = Some r /\
    (exists y, In y l /\ is_error y = false /\ Duration y = MinDuration r) /\
    (exists y, In y l /\ is_error y = false /\ Duration y = MaxDuration r).
Proof.
  intros Hx He Hall. unfold aggregate.
  destruct (finalize_total (collect l) elapsed) as [r Hr].
  exists r. split; [exact Hr|].
  destruct (finalize_fields _ _ _ Hr) as (_ & _ & _ & _ & -> & -> & _).
  destruct (foldl_extremes l init_acc) as [Hmin Hmax].
  unfold collect. rewrite Hmin, Hmax.
  change (MinDuration (report init_acc)) with max_int64.
  change (MaxDuration (report init_acc)) with 0.
  assert (Hne : response_durations l <> []).
  { intros Hnil.
    assert (Hd : In (Duration x) (response_durations l))
      by (apply response_durations_In; eauto).
    rewrite Hnil in Hd. contradiction. }
  assert (Hds : Forall (fun d => 0 <= d <= max_int64) (response_durations l)).
  { apply List.Forall_forall. intros d Hd.
    apply response_durations_In in Hd as (y & Hy & _ & <-).
    exact (proj1 (List.Forall_forall _ l) Hall y Hy). }
  split; apply response_durations_In.
  - apply foldr_min_attained; [exact Hne|].
    eapply Forall_impl; [exact Hds | intros d Hd; cbv beta in *; lia].
  - apply foldr_max_attained; [exact Hne|].
    eapply Forall_impl; [exact Hds | intros d Hd; cbv beta in *; lia].
Qed.

Lemma extremes_are_measured_witness :
  In (mkResult 404 10 None) mixed /\
  Forall (fun y => 0 <= Duration y <= max_int64) mixed /\
  exists r, aggregate mixed 7 = Some r /\
    exists y, In y mixed /\ is_error y = false /\ Duration y = MinDuration r.
Proof.
  assert (Hx : In (mkResult 404 10 None) mixed) by (simpl; auto).
  assert (Ha : Forall (fun y => 0 <= Duration y <= max_int64) mixed)
    by (repeat constructor; vm_compute; discriminate).
  split; [exact Hx|]. split; [exact Ha|].
  destruct (extremes_are_measured mixed 7 (mkResult 404 10 None) Hx eq_refl Ha)
    as (r & Hr & Hmin & _).
  exists r. split; [exact Hr | exact Hmin].
Defined.

Lemma average_between_extremes_when_all_ok_witness :
  Forall ok_response all_ok /\ all_ok <> [] /\
  Z.of_nat (length all_ok) <= max_int64 /\ total_of all_ok <= max_int64 /\
  exists r, aggregate all_ok 7 = Some r /\
    MinDuration r <= AvgDuration r <= MaxDuration r.
Proof.
  assert (Ha : Forall ok_response all_ok).
  { repeat constructor; try reflexivity; vm_compute; discriminate. }
  assert (Hn : all_ok <> []) by discriminate.
  assert (Hl : Z.of_nat (length all_ok) <= max_int64) by (vm_compute; discriminate).
  assert (Ht : total_of all_ok <= max_int64) by (vm_compute; discriminate).
  split; [exact Ha|]. split; [exact Hn|]. split; [exact Hl|]. split; [exact Ht|].
  exact (average_between_extremes_when_all_ok all_ok 7 Ha Hn Hl Ht).
Defined.

Lemma response_total_app_one l x :
  response_total (l ++ [x])
  = response_total l + (if is_error x then 0 else Duration x).
Proof.
  unfold response_total, response_durations.
  rewrite filter_app, fmap_app, foldr_app.
  assert (Hshift : forall ds b, foldr Z.add b ds = foldr Z.add 0 ds + b).
  { induction ds as [|d ds IH]; intros b; simpl; [lia | rewrite IH; lia]. }
  rewrite Hshift. f_equal.
  destruct (is_error x) eqn:Hx.
  - rewrite filter_cons_False by congruence. reflexivity.
  - rewrite filter_cons_True by exact Hx. simpl. lia.
Qed.

Lemma response_total_nonneg l :
  Forall (fun y => 0 <= Duration y) l -> 0 <= response_total l.
Proof.
  induction l as [|x l IH] using rev_ind; intros Hall; [simpl; reflexivity|].
  apply Forall_app in Hall as [Hall Hx]. apply Forall_cons in Hx as [Hx _].
  rewrite response_total_app_one. specialize (IH Hall).
  destruct (is_error x); lia.
Qed.

(** Without overflow the running total is the sum of the durations of
    all responses. *)
Lemma collect_total l :
  Forall (fun y => 0 <= Duration y) l -> response_total l <= max_int64 ->
  totalDuration (collect l) = response_total l.
Proof.
  induction l as [|x l IH] using rev_ind; intros Hall Hsum; [reflexivity|].
  apply Forall_app in Hall as [Hall Hx]. apply Forall_cons in Hx as [Hx _].
  rewrite response_total_app_one in *.
  pose proof (response_total_nonneg l Hall) as Hpos.
  rewrite collect_snoc. destruct (is_error x) eqn:He.
  - destruct (collect_step_error (collect l) x He) as (_ & _ & _ & ->).
    rewrite IH by (auto; lia). lia.
  - destruct (collect_step_response (collect l) x He) as (_ & _ & ->).
    rewrite IH by (auto; lia). unfold add64.
    apply wrap64_small. int64_consts. lia.
Qed.

(** X8: what the average of the report is.  With durations that are not
    negative and add up within [int64], and at least one response with
    status 200, it is the sum of the durations of all responses,
    whatever their status code, divided by the number of responses with
    status 200 and rounded down. *)
Theorem average_is_total_over_successes (l : list Result) (elapsed : Z) :
  Forall (fun y => 0 <= Duration y) l -> response_total l <= max_int64 ->
  Z.of_nat (length l) <= max_int64 -> 0 < count_success l ->
  exists r, aggregate l elapsed = Some r /\
    AvgDuration r = response_total l / count_success l.
Proof.
  intros Hall Hsum Hlen Hpos.
  destruct (collect_counts l Hlen) as (_ & HS & _).
  pose proof (response_total_nonneg l Hall) as Hnn.
  unfold aggregate, finalize, div64.
  rewrite HS, (collect_total l Hall Hsum), Z.gtb_ltb.
  destruct (Z.ltb_spec 0 (count_success l)); [|lia].
  destruct (Z.eqb_spec (count_success l) 0); [lia|].
  eexists. split; [reflexivity|]. simpl.
  rewrite Z.quot_div_nonneg by lia.
  apply wrap64_small. int64_consts. split.
  - pose proof (Z.div_pos (response_total l) (count_success l)). lia.
  - assert (response_total l / count_success l <= response_total l); [|lia].
    apply Z.div_le_upper_bound; nia.
Qed.

Lemma average_is_total_over_successes_witness :
  Forall (fun y => 0 <= Duration y) mixed /\ response_total mixed <= max_int64 /\
  Z.of_nat (length mixed) <= max_int64 /\ 0 < count_success mixed /\
  exists r, aggregate mixed 7 = Some r /\ AvgDuration r = 45.
Proof.
  assert (Ha : Forall (fun y => 0 <= Duration y) mixed)
    by (repeat constructor; vm_compute; discriminate).
  assert (Hs : response_total mixed <= max_int64) by (vm_compute; discriminate).
  assert (Hl : Z.of_nat (length mixed) <= max_int64) by (vm_compute; discriminate).
  assert (Hp : 0 < count_success mixed) by reflexivity.
  split; [exact Ha|]. split; [exact Hs|]. split; [exact Hl|]. split; [exact Hp|].
  destruct (average_is_total_over_successes mixed 7 Ha Hs Hl Hp) as (r & Hr & Havg).
  exists r. split; [exact Hr|]. rewrite Havg. reflexivity.
Defined.

(** ** What the goroutines of [Run] never do *)

Lemma tally_flight_le_length (ws : list Worker) :
  (tally getting ws + tally sending ws <= length ws)%nat.
Proof. induction ws as [|w ws IH]; simpl; [lia | destruct w; simpl; lia]. Qed.

(** X9: at every moment of every run there are at most
    [st.Concurrency] workers, so at most that many calls of
    [st.Client.Get] are under way, and no more than [st.Requests] calls
    have been made since the start. *)
Theorem load_is_bounded (st : StressTest) (s : State) :
  valid_config st -> reachable st s ->
  Z.of_nat (length (workers s)) <= Concurrency st /\
  (tally getting (workers s) <= length (workers s))%nat /\
  Z.of_nat (issued (hist s)) <= Requests st.
Proof.
  intros Hvalid Hreach.
  destruct (inv_reachable st Hvalid s Hreach) as (Hph & (A1 & A2 & A3 & A4) & _ & _).
  pose proof (tally_flight_le_length (workers s)) as Hfl.
  destruct Hvalid as [[HN _] [HC _]].
  unfold phase in Hph. destruct (main s).
  - destruct Hph as (Hi & Hpl & _ & Hws & _). rewrite Hws in *. simpl in *. lia.
  - destruct Hph as (Hi & Hlen & _ & Hpl & _). lia.
  - destruct Hph as (Hi & _ & Hlen & _ & Hpl). lia.
  - destruct Hph as (_ & Hlen & _ & Hpl & _). lia.
  - contradiction.
Qed.

Lemma load_is_bounded_witness :
  valid_config one_request /\ reachable one_request one_request_end /\
  Z.of_nat (length (workers one_request_end)) <= 3 /\
  Z.of_nat (issued (hist one_request_end)) <= 1.
Proof.
  assert (Hv : valid_config one_request) by (vm_compute; intuition discriminate).
  assert (Hr : reachable one_request one_request_end).
  { apply (exec_reachable one_request (one_request_schedule (GetOk 200)) init_state);
      [apply reach_init | vm_compute; reflexivity]. }
  split; [exact Hv|]. split; [exact Hr|].
  destruct (load_is_bounded one_request one_request_end Hv Hr) as (Hw & _ & Hi).
  split; [exact Hw | exact Hi].
Defined.

(** X10: the two channels never hold more than their capacity
    [st.Requests], and no send ever finds its channel full: neither the
    sends of the filling loop on [requestChan] nor the send of a worker
    on [results]. *)
Theorem sends_never_block (st : StressTest) (s : State) :
  valid_config st -> reachable st s ->
  Z.of_nat (requestChan s) <= Requests st /\
  Z.of_nat (length (results s)) <= Requests st /\
  (forall i, main s = MFill i -> i < Requests st ->
     Z.of_nat (requestChan s) < Requests st) /\
  (forall k r, workers s !! k = Some (WSend r) ->
     Z.of_nat (length (results s)) < Requests st).
Proof.
  intros Hvalid Hreach.
  destruct (inv_reachable st Hvalid s Hreach) as (Hph & (A1 & A2 & A3 & A4) & _ & _).
  assert (Hpl : Z.of_nat (placed (hist s)) <= Requests st).
  { unfold phase in Hph. destruct (main s); lia. }
  repeat split; try lia.
  - intros i Hm Hi. unfold phase in Hph. rewrite Hm in Hph. lia.
  - intros k r Hk.
    pose proof (tally_lookup_le sending (workers s) k (WSend r) Hk) as Hle.
    simpl in Hle. lia.
Qed.

Lemma sends_never_block_witness :
  valid_config one_request /\ reachable one_request one_request_end /\
  Z.of_nat (length (results one_request_end)) <= 1.
Proof.
  assert (Hv : valid_config one_request) by (vm_compute; intuition discriminate).
  assert (Hr : reachable one_request one_request_end).
  { apply (exec_reachable one_request (one_request_schedule (GetOk 200)) init_state);
      [apply reach_init | vm_compute; reflexivity]. }
  split; [exact Hv|]. split; [exact Hr|].
  exact (proj1 (proj2 (sends_never_block one_request one_request_end Hv Hr))).
Defined.

(** X11: a worker returns only when [requestChan] is closed and empty:
    as long as a token is queued, no worker has left its loop. *)
Theorem workers_leave_only_when_drained (st : StressTest) (s : State) (k : nat) :
  valid_config st -> reachable st s ->
  workers s !! k = Some WDone ->
  closed s = true /\ requestChan s = 0%nat.
Proof.
  intros Hvalid Hreach Hk.
  destruct (inv_reachable st Hvalid s Hreach) as (Hph & _ & _ & Hret).
  pose proof (tally_lookup_le returned (workers s) k WDone Hk) as Hle.
  simpl in Hle. split; [|destruct Hret; lia].
  unfold phase in Hph. destruct (main s).
  - destruct Hph as (_ & _ & _ & Hws & _). rewrite Hws in Hk. discriminate.
  - apply Hph.
  - apply Hph.
  - apply Hph.
  - contradiction.
Qed.

Lemma workers_leave_only_when_drained_witness :
  valid_config one_request /\ reachable one_request one_request_end /\
  workers one_request_end !! 1%nat = Some WDone /\
  closed one_request_end = true /\ requestChan one_request_end = 0%nat.
Proof.
  assert (Hv : valid_config one_request) by (vm_compute; intuition discriminate).
  assert (Hr : reachable one_request one_request_end).
  { apply (exec_reachable one_request (one_request_schedule (GetOk 200)) init_state);
      [apply reach_init | vm_compute; reflexivity]. }
  assert (Hk : workers one_request_end !! 1%nat = Some WDone) by (vm_compute; reflexivity).
  split; [exact Hv|]. split; [exact Hr|]. split; [exact Hk|].
  exact (workers_leave_only_when_drained one_request one_request_end 1 Hv Hr Hk).
Defined.

(** X12: the report [Run] returns is the aggregation of exactly the
    [st.Requests] results it received, in the order of their arrival;
    in particular its successful and failed requests add up to
    [st.Requests]. *)
Theorem run_returns_the_aggregate (st : StressTest) (s : State) (r : Report) :
  valid_config st -> reachable st s -> main s = MReturn r ->
  Z.of_nat (length (consumed (hist s))) = Requests st /\
  (exists elapsed, aggregate (consumed (hist s)) elapsed = Some r) /\
  SuccessfulRequests r + FailedRequests r = Requests st.
Proof.
  intros Hvalid Hreach Hm.
  destruct (inv_reachable st Hvalid s Hreach) as (Hph & _ & Hacc & _).
  unfold phase in Hph. rewrite Hm in Hph.
  destruct Hph as (Hco & _ & _ & _ & elapsed & Hr).
  rewrite Hacc in Hr.
  split; [exact Hco|]. split; [exists elapsed; exact Hr|].
  destruct (finalize_fields _ _ _ Hr) as (_ & -> & -> & _).
  destruct Hvalid as [[_ HN] _].
  destruct (collect_counts (consumed (hist s))) as (_ & -> & -> & _); lia.
Qed.

Lemma run_returns_the_aggregate_witness :
  valid_config one_request /\ reachable one_request one_request_end /\
  forall r, main one_request_end = MReturn r ->
    SuccessfulRequests r + FailedRequests r = 1.
Proof.
  assert (Hv : valid_config one_request) by (vm_compute; intuition discriminate).
  assert (Hr : reachable one_request one_request_end).
  { apply (exec_reachable one_request (one_request_schedule (GetOk 200)) init_state);
      [apply reach_init | vm_compute; reflexivity]. }
  split; [exact Hv|]. split; [exact Hr|]. intros r Hm.
  exact (proj2 (proj2 (run_returns_the_aggregate one_request one_request_end r Hv Hr Hm))).
Defined.




(** ** [main] and [printReport] *)

(** X14: all three flags are required: when [--url], [--requests] or
    [--concurrency] is not given, its default makes the validation
    fail, and [main] writes the error and the usage lines and nothing
    else, without a single HTTP request. *)
Theorem missing_flag_is_rejected (rt : Runtime) (f : Flags) :
  flag_url f = None \/ flag_requests f = None \/ flag_concurrency f = None ->
  main_runs rt f usage 0%nat /\
  forall out n, main_runs rt f out n -> out = usage /\ n = 0%nat.
Proof.
  intros Hmissing.
  assert (Hbad : invalid (url_of f) (requests_of f) (concurrency_of f) = true).
  { apply invalid_true. unfold url_of, requests_of, concurrency_of.
    destruct Hmissing as [-> | [-> | ->]]; simpl; [left | right; left | right; right];
      (reflexivity || lia). }
  split; [exact (main_rejects rt f Hbad)|].
  intros out n Hrun.
  destruct Hrun as [_ | Hok _ | s r Hok _ _ _]; [auto | congruence | congruence].
Qed.

Lemma missing_flag_is_rejected_witness :
  flag_url flags_without_url = None /\ main_runs go_max flags_without_url usage 0%nat.
Proof.
  assert (H : flag_url flags_without_url = None) by reflexivity.
  split; [exact H|].
  exact (proj1 (missing_flag_is_rejected go_max flags_without_url (or_introl H))).
Defined.

(** X15: whenever [main] prints a report, the flags were valid, the
    test was built by [NewStressTest] from them, and the report
    accounts for every request asked for: its total is [--requests],
    and so is the sum of its successful and failed requests. *)
Theorem printed_report_accounts_for_requests (rt : Runtime) (f : Flags)
    (r : Report) (n : nat) :
  in_int64 (requests_of f) -> in_int64 (concurrency_of f) ->
  main_runs rt f [PrintReport r] n ->
  url_of f <> EmptyString /\ 0 < requests_of f /\ 0 < concurrency_of f /\
  TotalRequests r = requests_of f /\
  SuccessfulRequests r + FailedRequests r = requests_of f /\
  Z.of_nat n = requests_of f.
Proof.
  intros Hr Hc Hrun.
  inversion Hrun as [| | s r' Hok Hstart Hs Hm Hout Hn]. subst r' n.
  apply invalid_false in Hok.
  set (st := NewStressTest (url_of f) (requests_of f) (concurrency_of f)) in *.
  assert (Hvalid : valid_config st).
  { unfold valid_config, in_int64 in *. simpl. lia. }
  pose proof (inv_reachable st Hvalid s Hs) as Hinv.
  destruct (at_return st Hvalid s r Hinv Hm) as (_ & _ & _ & _ & _ & Hi & _ & Hco & HT).
  destruct Hinv as (Hph & _ & Hacc & _).
  unfold phase in Hph. rewrite Hm in Hph.
  destruct Hph as (_ & _ & _ & _ & elapsed & Hfin). rewrite Hacc in Hfin.
  destruct (finalize_fields _ _ _ Hfin) as (_ & HS & HF & _).
  destruct Hvalid as [[_ HN] _].
  destruct (collect_counts (consumed (hist s))) as (_ & HS' & HF' & _); [lia|].
  simpl in Hco, HT, Hi.
  repeat split; try tauto; try lia.
Qed.

Lemma printed_report_accounts_for_requests_witness :
  in_int64 (requests_of flags_one_request) /\
  in_int64 (concurrency_of flags_one_request) /\
  forall r n, main_runs go_max flags_one_request [PrintReport r] n ->
    TotalRequests r = 1 /\ Z.of_nat n = 1.
Proof.
  assert (Hr : in_int64 (requests_of flags_one_request))
    by (vm_compute; intuition discriminate).
  assert (Hc : in_int64 (concurrency_of flags_one_request))
    by (vm_compute; intuition discriminate).
  split; [exact Hr|]. split; [exact Hc|]. intros r n Hrun.
  destruct (printed_report_accounts_for_requests go_max flags_one_request r n Hr Hc Hrun)
    as (_ & _ & _ & HT & _ & Hn).
  split; [exact HT | exact Hn].
Defined.

Lemma foldr_counts_permutation (o o' : list (Z * Z)) :
  Permutation o o' ->
  foldr (fun e a => snd e + a) 0 o = foldr (fun e a => snd e + a) 0 o'.
Proof.
  induction 1 as [|e o o' _ IH|e e' o|o o' o'' _ IH1 _ IH2]; simpl; lia.
Qed.

Lemma hist_sum_to_list (m : gmap Z Z) :
  hist_sum m = foldr (fun e a => snd e + a) 0 (map_to_list m).
Proof.
  unfold hist_sum. rewrite map_fold_foldr.
  induction (map_to_list m) as [|[k v] o IH]; simpl; [reflexivity | rewrite IH; reflexivity].
Qed.

(** X16: [printReport] on a report of the aggregation writes ten lines
    and then one status line for every status code of the histogram,
    each code once.  The count of every status line is at least one
    and at most [TotalRequests], the denominator of its percentage, so
    no percentage is computed from a zero total or exceeds the whole;
    and the counts of the status lines add up to [TotalRequests] minus
    the transport errors. *)
Theorem status_lines_are_shares (l : list Result) (elapsed : Z) (r : Report)
    (out : list Write) :
  Z.of_nat (length l) <= max_int64 ->
  aggregate l elapsed = Some r -> prints r out ->
  exists order,
    out = printReport order r /\
    length out = (10 + size (StatusCodes r))%nat /\
    NoDup (fst <$> order) /\
    (forall k c, In (k, c) order <-> StatusCodes r !! k = Some c) /\
    Forall (fun e => 0 < snd e <= TotalRequests r) order /\
    foldr (fun e a => snd e + a) 0 order = TotalRequests r - count_errors l.
Proof.
  intros Hlen Hr (order & Hperm & ->). exists order.
  unfold aggregate in Hr.
  destruct (finalize_fields _ _ _ Hr) as (HT & _ & _ & HC & _).
  destruct (collect_counts l Hlen) as (HT' & _ & _ & HH & HP).
  pose proof (count_if_bounds is_error l) as Be. fold (count_errors l) in Be.
  split; [reflexivity|]. split; [|split; [|split; [|split]]].
  - unfold printReport. rewrite length_app, length_fmap. simpl.
    rewrite (Permutation_length Hperm), length_map_to_list. reflexivity.
  - rewrite Hperm. apply NoDup_fst_map_to_list.
  - intros k c. rewrite <- list_elem_of_In, Hperm. apply elem_of_map_to_list.
  - apply List.Forall_forall. intros [k c] Hin. simpl.
    apply list_elem_of_In in Hin. rewrite Hperm in Hin.
    apply elem_of_map_to_list in Hin. rewrite HC in Hin.
    pose proof (map_get_le_sum _ k HP) as Hle.
    pose proof (collect_histogram l Hlen k) as Hk. rewrite Hin in Hk.
    unfold map_get in Hle. rewrite Hin in Hle. simpl in Hle.
    destruct (Z.eqb_spec (count_status k l) 0) as [_|Hne]; [discriminate|].
    injection Hk as ->. lia.
  - rewrite (foldr_counts_permutation _ _ Hperm), <- hist_sum_to_list, HC, HH, HT, HT'.
    reflexivity.
Qed.

Lemma status_lines_are_shares_witness :
  Z.of_nat (length mixed) <= max_int64 /\
  exists r, aggregate mixed 7 = Some r /\
    prints r (printReport (map_to_list (StatusCodes r)) r) /\
    exists order : list (Z * Z),
      Forall (fun e => 0 < snd e <= TotalRequests r) order /\
      foldr (fun e a => snd e + a) 0 order = TotalRequests r - count_errors mixed.
Proof.
  assert (Hl : Z.of_nat (length mixed) <= max_int64) by (vm_compute; discriminate).
  split; [exact Hl|].
  destruct (finalize_total (collect mixed) 7) as [r Hr].
  assert (Hp : prints r (printReport (map_to_list (StatusCodes r)) r)).
  { exists (map_to_list (StatusCodes r)). split; [apply Permutation_refl | reflexivity]. }
  exists r. split; [exact Hr|]. split; [exact Hp|].
  destruct (status_lines_are_shares mixed 7 r _ Hl Hr Hp)
    as (order & _ & _ & _ & _ & Hall & Hsum).
  exists order. split; [exact Hall | exact Hsum].
Defined.
